(** * Quiz application (app.py): session-driven quiz flow, scoring and login

    A shallow embedding of the Flask view functions of [app.py] and of the
    Python operations they rely on, followed by the properties of the
    specification that were checked against them.

    - Python [int] is [Z]; Python [float] is an IEEE 754 binary64 value,
      modelled by [spec_float] at precision 53 with the operations of
      [SpecFloat] (round to nearest, ties to even).
    - The Flask [session] is a dictionary: a [gmap string value].
    - A view function maps a request and a session to the session it leaves
      behind and an outcome: a response, or the exception it raised. *)

From Stdlib Require Import ZArith QArith Qround Qabs Bool List.
From Stdlib Require Import SpecFloat.
From stdpp Require Import gmap strings list pretty.

Local Open Scope Z_scope.

(** ** Python floats *)

Module PyFloat.

Definition prec : Z := 53.
Definition emax : Z := 1024.

Definition float : Type := spec_float.

Definition fadd : float → float → float := SFadd prec emax.
Definition fsub : float → float → float := SFsub prec emax.
Definition fmul : float → float → float := SFmul prec emax.
Definition fdiv : float → float → float := SFdiv prec emax.

(** [float(n)] for a Python int: the nearest binary64 value. *)
Definition of_int (n : Z) : float := binary_normalize prec emax n 0 false.

Definition is_zero (x : float) : bool :=
  match x with S754_zero _ => true | _ => false end.

Definition is_finite (x : float) : bool :=
  match x with S754_zero _ | S754_finite _ _ _ => true | _ => false end.

Definition sign (x : float) : bool :=
  match x with
  | S754_zero s | S754_infinity s | S754_finite s _ _ => s
  | S754_nan => false
  end.

(** [x < 0] on floats. *)
Definition is_neg (x : float) : bool := SFltb x (S754_zero false).

(** [copysign(0.0, y)]. *)
Definition zero_like (y : float) : float := S754_zero (sign y).

(** [math.floor] as C's [floor]: a float in, a float out. *)
Definition floor (x : float) : float :=
  match x with
  | S754_finite s m e =>
      if 0 <=? e then x
      else
        let q := (if s then Z.neg m else Z.pos m) / 2 ^ (- e) in
        binary_normalize prec emax q 0 s
  | _ => x
  end.

(** C's [fmod]: the exact remainder of [x / y] truncated towards zero; it
    has the sign of [x]. *)
Definition fmod (x y : float) : float :=
  match x, y with
  | S754_nan, _ | _, S754_nan => S754_nan
  | S754_infinity _, _ => S754_nan
  | _, S754_zero _ => S754_nan
  | _, S754_infinity _ => x
  | S754_zero _, _ => x
  | S754_finite sx mx ex, S754_finite _ my ey =>
      let ez := Z.min ex ey in
      let ax := Z.pos mx * 2 ^ (ex - ez) in
      let ay := Z.pos my * 2 ^ (ey - ez) in
      let r := ax mod ay in
      binary_normalize prec emax (if sx then - r else r) ez sx
  end.

(** [int(x)] for a float: truncation towards zero; [None] for an infinity
    (OverflowError) or a NaN (ValueError). *)
Definition trunc (x : float) : option Z :=
  match x with
  | S754_zero _ => Some 0
  | S754_finite s m e =>
      let a := if 0 <=? e then Z.pos m * 2 ^ e else Z.pos m / 2 ^ (- e) in
      Some (if s then - a else a)
  | _ => None
  end.

(** The integer nearest to [x * 10^ndigits], ties to the even one: the
    digits that [round(x, ndigits)] keeps. [x] is finite. *)
Definition scaled_round (x : float) (ndigits : Z) : Z :=
  match x with
  | S754_finite s m e =>
      let num := Z.pos m * 10 ^ ndigits in
      let a :=
        if 0 <=? e then num * 2 ^ e
        else
          let den := 2 ^ (- e) in
          let q := num / den in
          let r := num mod den in
          match 2 * r ?= den with
          | Lt => q
          | Gt => q + 1
          | Eq => if Z.even q then q else q + 1
          end in
      if s then - a else a
  | _ => 0
  end.

(** [round(x, ndigits)] for [0 <= ndigits]: the decimal with [ndigits]
    digits after the point nearest to [x], read back as the nearest
    float. Infinities and NaN round to themselves; the sign of [x] is
    kept when the digits are all zero. *)
Definition round (x : float) (ndigits : Z) : float :=
  match x with
  | S754_finite s _ _ =>
      match scaled_round x ndigits with
      | Z0 => S754_zero s
      | Zpos n => fdiv (S754_finite false n 0) (of_int (10 ^ ndigits))
      | Zneg n => fdiv (S754_finite true n 0) (of_int (10 ^ ndigits))
      end
  | _ => x
  end.

(** [divmod] on floats with a non-zero divisor, step by step as CPython
    computes [x // y] and [x % y]. *)
Definition divmod (vx wx : float) : float * float :=
  let mod0 := fmod vx wx in
  let div0 := fdiv (fsub vx mod0) wx in
  let '(mod1, div1) :=
    if is_zero mod0 then (zero_like wx, div0)
    else if negb (Bool.eqb (is_neg wx) (is_neg mod0))
         then (fadd mod0 wx, fsub div0 (of_int 1))
         else (mod0, div0) in
  let floordiv :=
    if is_zero div1 then zero_like (fdiv vx wx)
    else
      let fl := floor div1 in
      if SFltb (fdiv (of_int 1) (of_int 2)) (fsub div1 fl)
      then fadd fl (of_int 1) else fl in
  (floordiv, mod1).

Definition floordiv (x y : float) : float := fst (divmod x y).
Definition fmodulo (x y : float) : float := snd (divmod x y).

End PyFloat.

Import PyFloat.

(** ** Data model *)

(** A question of [questions.json]. The options keep the order of the file. *)
Record Question := {
  question : string;
  options : list (string * string);
  answer : string
}.

(** The dictionary that [submit_answer] appends to [session['answers']].
    [user_answer] is [None] when the form has no field [answer]. *)
Record AnswerRecord := {
  a_question : string;
  user_answer : option string;
  correct_answer : string;
  is_correct : bool;
  a_options : list (string * string)
}.

(** A row of the user table ([models.User]). *)
Record User := {
  user_id : Z;
  email : string;
  username : string;
  password : string
}.

(** The submitted data of [forms.LoginForm]. *)
Record LoginForm := {
  username_data : string;
  password_data : string
}.

(** The Python values that the views store in the session or hand to a
    template. *)
Inductive value :=
| VNone
| VInt (n : Z)
| VFloat (x : float)
| VStr (s : string)
| VQuestion (q : Question)
| VQuestions (qs : list Question)
| VAnswers (rs : list AnswerRecord)
| VFlashes (ms : list (string * string))
| VForm (f : LoginForm).

Abbreviation session := (gmap string value).

Inductive exn :=
| KeyError (key : string)
| IndexError
| TypeError
| ValueError
| OverflowError
| ZeroDivisionError
| AttributeError
| BuildError
| IntegrityError.

(** What a view returns: [redirect(url_for(endpoint, **values))] or
    [render_template(template, **context)]. *)
Inductive response :=
| Redirect (endpoint : string) (values : list (string * string))
| Render (template : string) (context : gmap string value).

Inductive result (A : Type) :=
| Ok (a : A)
| Raise (e : exn).
Arguments Ok {A} a.
Arguments Raise {A} e.

(** What a request carries: the submitted form, whether flask-login finds
    an authenticated [current_user], and the reading of [time.time()]. *)
Record request := {
  form : gmap string string;
  authenticated : bool;
  clock : float
}.

(** ** Views as computations over the session

    A view reads and writes the session and either returns or raises; the
    session as the exception found it is part of the outcome. *)

Definition M (A : Type) : Type := session → session * result A.

Definition ret {A} (a : A) : M A := λ s, (s, Ok a).
Definition raise {A} (e : exn) : M A := λ s, (s, Raise e).
Definition bind {A B} (m : M A) (k : A → M B) : M B :=
  λ s, match m s with
       | (s', Ok a) => k a s'
       | (s', Raise e) => (s', Raise e)
       end.

Declare Scope view_scope.
Delimit Scope view_scope with view.
Notation "x <- m ;; k" := (bind m (λ x, k))
  (at level 100, m at next level, right associativity) : view_scope.
Notation "m ;;; k" := (bind m (λ _, k))
  (at level 100, right associativity) : view_scope.
Local Open Scope view_scope.

(** [session[key]] *)
Definition session_get (key : string) : M value :=
  λ s, match s !! key with
       | Some v => (s, Ok v)
       | None => (s, Raise (KeyError key))
       end.

(** [session[key] = v] *)
Definition session_set (key : string) (v : value) : M unit :=
  λ s, (<[key := v]> s, Ok tt).

(** [key in session] *)
Definition session_contains (key : string) : M bool :=
  λ s, (s, Ok (bool_decide (is_Some (s !! key)))).

Definition lift {A} (r : result A) : M A := λ s, (s, r).

(** *** Dynamic typing: what an operation accepts *)

Definition as_int (v : value) : result Z :=
  match v with VInt n => Ok n | _ => Raise TypeError end.

Definition as_float (v : value) : result float :=
  match v with VFloat x => Ok x | VInt n => Ok (of_int n) | _ => Raise TypeError end.

(** [l[i]] for a list and a Python int, negative indices counting from the
    end; [None] is IndexError. *)
Definition index {A} (l : list A) (i : Z) : option A :=
  let n := Z.of_nat (length l) in
  if 0 <=? i then l !! Z.to_nat i
  else if 0 <=? n + i then l !! Z.to_nat (n + i)
  else None.

(** [l[:n]] *)
Definition slice_to {A} (l : list A) (n : Z) : list A :=
  if 0 <=? n then take (Z.to_nat n) l
  else take (Z.to_nat (Z.of_nat (length l) + n)) l.

(** [container[i]] on session values. *)
Definition subscript (container i : value) : result Question :=
  match container, i with
  | VQuestions qs, VInt n =>
      match index qs n with
      | Some q => Ok q
      | None => Raise IndexError
      end
  | _, _ => Raise TypeError
  end.

(** [session[key].append(r)]: the list is changed in place and stays the
    value of [key]. *)
Definition session_append (key : string) (r : AnswerRecord) : M unit :=
  v <- session_get key ;;
  match v with
  | VAnswers rs => λ s, (<[key := VAnswers (rs ++ [r])]> s, Ok tt)
  | _ => raise AttributeError
  end.

(** [flash(message, category)]: Flask keeps the flashed messages in the
    session under ["_flashes"]. *)
Definition flash (message category : string) : M unit :=
  λ s,
    let flashes := match s !! "_flashes" with
                   | Some (VFlashes ms) => ms
                   | _ => []
                   end in
    (<["_flashes" := VFlashes (flashes ++ [(category, message)])]> s, Ok tt).

(** [@login_required], with [login_manager.login_view = 'login']: an
    anonymous request is answered by flask-login, which flashes its message
    and redirects to the login view; the view itself is not run. *)
Definition login_required (view : request → M response) : request → M response :=
  λ req,
    if authenticated req then view req
    else
      flash "Please log in to access this page." "message" ;;;
      ret (Redirect "login" []).

(** ** The question store *)

(** [questions.json]: [None] when the file is missing or is not JSON,
    otherwise the mapping under its key [categories]. *)
Definition questions_file : Type := option (gmap string (list Question)).

(** What [load_questions] returns: [None], the whole mapping, or one
    category's list. *)
Inductive loaded :=
| NoData
| Categories (c : gmap string (list Question))
| Questions (qs : list Question).

(** [not x] on what a form field holds. *)
Definition not_str (x : option string) : bool :=
  match x with
  | None => true
  | Some s => bool_decide (s = "")
  end.

Definition load_questions (file : questions_file) (category : option string) : loaded :=
  match file with
  | Some categories =>
      if not_str category then Categories categories
      else Questions (default [] (categories !! default "" category))
  | None => NoData
  end.

Definition get_questions (questions : list Question) (num_questions : Z) : list Question :=
  let num_questions :=
    if Z.of_nat (length questions) <? num_questions
    then Z.of_nat (length questions) else num_questions in
  slice_to questions num_questions.

(** [not questions] and [len(questions)] on what [load_questions] returned. *)
Definition falsy (l : loaded) : bool :=
  match l with
  | NoData => true
  | Categories c => bool_decide (c = ∅)
  | Questions qs => bool_decide (qs = [])
  end.

Definition len (l : loaded) : Z :=
  match l with
  | NoData => 0
  | Categories c => Z.of_nat (size c)
  | Questions qs => Z.of_nat (length qs)
  end.

(** ** The quiz controller *)

Definition labels : list string := ["A"; "B"; "C"; "D"].

(** [user_answer in ("A", "B", "C", "D")] *)
Definition in_labels (user_answer : option string) : bool :=
  match user_answer with
  | Some a => bool_decide (a ∈ labels)
  | None => false
  end.

(** [a / b] on Python ints: the float nearest to the quotient. *)
Definition int_truediv (a b : Z) : result float :=
  let raw (n : Z) : float :=
    match n with
    | Z0 => S754_zero false
    | Zpos p => S754_finite false p 0
    | Zneg p => S754_finite true p 0
    end in
  if b =? 0 then Raise ZeroDivisionError
  else match fdiv (raw a) (raw b) with
       | S754_infinity _ => Raise OverflowError
       | x => Ok x
       end.

(** [int(x)] on a float. *)
Definition int_of_float (x : float) : result Z :=
  match trunc x with
  | Some n => Ok n
  | None => Raise (match x with S754_nan => ValueError | _ => OverflowError end)
  end.

(** [f"{minutes}m {seconds}s"] for the rounded duration. *)
Definition format_time_taken (time_taken_seconds : float) : result string :=
  match int_of_float (floordiv time_taken_seconds (of_int 60)) with
  | Raise e => Raise e
  | Ok minutes =>
      match int_of_float (fmodulo time_taken_seconds (of_int 60)) with
      | Raise e => Raise e
      | Ok seconds => Ok (pretty minutes +:+ "m " +:+ pretty seconds +:+ "s")
      end
  end.

Section Views.

(** Python and library functions that the views call and that are not
    part of the application: [int] on a string ([None]: ValueError),
    [str.capitalize], [str.strip], werkzeug's [check_password_hash],
    [FlaskForm.validate_on_submit] and flask-login's [login_user]. *)
Variable int_of_str : string → option Z.
Variable capitalize : string → string.
Variable strip : string → string.
Variable check_password_hash : string → string → bool.
Variable validate_on_submit : LoginForm → bool.
Variable login_user : User → session → session.

(** [POST /login] *)
Definition login (users : list User) (f : LoginForm) : M response :=
  if validate_on_submit f then
    let email' := strip (username_data f) in
    let password' := strip (password_data f) in
    let user := List.find (λ u, String.eqb (email u) email') users in
    let failed : M response :=
      ret (Render "home/index.html"
             {[ "form" := VForm f; "msg" := VStr "Invalid email or password" ]}) in
    match user with
    | Some u =>
        if check_password_hash (password u) password' then
          (λ s, (login_user u s, Ok tt)) ;;;
          flash "Login successful!" "success" ;;;
          ret (Redirect "index" [])
        else failed
    | None => failed
    end
  else
    ret (Render "home/index.html" {[ "form" := VForm f; "msg" := VStr "" ]}).

(** [POST /start] *)
Definition start_quiz (file : questions_file) : request → M response :=
  login_required (λ req,
    let category := form req !! "category" in
    raw <- lift (match form req !! "total_questions" with
                 | Some r => Ok r
                 | None => Raise TypeError
                 end) ;;
    total_questions <- lift (match int_of_str raw with
                             | Some n => Ok n
                             | None => Raise ValueError
                             end) ;;
    let questions := load_questions file category in
    if falsy questions || (total_questions <=? 0) then
      flash "Invalid quiz parameters!" "error" ;;;
      match category with
      | Some c => ret (Redirect "category_questions" [("category", c)])
      | None => raise BuildError
      end
    else
      session_set "category" (match category with Some c => VStr c | None => VNone end) ;;;
      session_set "total_questions" (VInt (Z.min total_questions (len questions))) ;;;
      n <- session_get "total_questions" ;;
      qs <- lift (match questions, n with
                  | Questions l, VInt n => Ok (get_questions l n)
                  | _, _ => Raise TypeError
                  end) ;;
      session_set "questions" (VQuestions qs) ;;;
      session_set "current_index" (VInt 0) ;;;
      session_set "answers" (VAnswers []) ;;;
      session_set "start_time" (VFloat (clock req)) ;;;
      ret (Redirect "show_question" [])).

(** [GET /quiz]; the [@login_required] above it is commented out. *)
Definition show_question (req : request) : M response :=
  started <- session_contains "current_index" ;;
  if negb started then ret (Redirect "index" [])
  else
    ci <- session_get "current_index" ;;
    tq <- session_get "total_questions" ;;
    current_index <- lift (as_int ci) ;;
    total_questions <- lift (as_int tq) ;;
    if total_questions <=? current_index then ret (Redirect "show_results" [])
    else
      qs <- session_get "questions" ;;
      q <- lift (subscript qs ci) ;;
      ret (Render "quiz.html"
             {[ "question" := VQuestion q;
                "question_number" := VInt (current_index + 1);
                "total_questions" := VInt total_questions ]}).

(** [POST /submit]; the [@login_required] above it is commented out. *)
Definition submit_answer (req : request) : M response :=
  ci <- session_get "current_index" ;;
  qs <- session_get "questions" ;;
  q <- lift (subscript qs ci) ;;
  let user_answer := form req !! "answer" in
  let is_correct :=
    if negb (in_labels user_answer) then false
    else bool_decide (user_answer = Some (answer q)) in
  session_append "answers"
    {| a_question := question q;
       user_answer := user_answer;
       correct_answer := answer q;
       is_correct := is_correct;
       a_options := options q |} ;;;
  current_index <- lift (as_int ci) ;;
  session_set "current_index" (VInt (current_index + 1)) ;;;
  ret (Redirect "show_question" []).

(** [GET /results] *)
Definition show_results : request → M response :=
  login_required (λ req,
    has_answers <- session_contains "answers" ;;
    if negb has_answers then ret (Redirect "index" [])
    else
      tq <- session_get "total_questions" ;;
      answers <- session_get "answers" ;;
      rs <- lift (match answers with VAnswers rs => Ok rs | _ => Raise TypeError end) ;;
      let correct := Z.of_nat (length (List.filter is_correct rs)) in
      total_questions <- lift (as_int tq) ;;
      ratio <- lift (int_truediv correct total_questions) ;;
      let score := round (fmul ratio (of_int 100)) 2 in
      st <- session_get "start_time" ;;
      start_time <- lift (as_float st) ;;
      let time_taken_seconds := round (fsub (clock req) start_time) 2 in
      time_taken_formatted <- lift (format_time_taken time_taken_seconds) ;;
      cat <- session_get "category" ;;
      category <- lift (match cat with
                        | VStr c => Ok (capitalize c)
                        | _ => Raise AttributeError
                        end) ;;
      ret (Render "results.html"
             {[ "category" := VStr category;
                "total_questions" := VInt total_questions;
                "correct" := VInt correct;
                "score" := VFloat score;
                "time_taken" := VStr time_taken_formatted;
                "answers" := VAnswers rs ]})).


(** The record that [submit_answer] builds for an answer to [q]. *)
Definition record_of (q : Question) (ua : option string) : AnswerRecord :=
  {| a_question := question q;
     user_answer := ua;
     correct_answer := answer q;
     is_correct :=
       if negb (in_labels ua) then false else bool_decide (ua = Some (answer q));
     a_options := options q |}.

(** ** States of the quiz *)

(** The session keys that hold the quiz. *)
Definition quiz_keys : list string :=
  ["category"; "total_questions"; "questions"; "current_index"; "answers"; "start_time"].

(** [NoQuiz]: no quiz key is in the session. *)
Definition no_quiz (s : session) : Prop :=
  ∀ k, k ∈ quiz_keys → s !! k = None.

(** The sessions reached by a successful [start_quiz] followed by any
    number of [submit_answer] calls, whatever their outcome. *)
Inductive reachable (file : questions_file) : session → Prop :=
| reach_start req s s' :
    start_quiz file req s = (s', Ok (Redirect "show_question" [])) →
    reachable file s'
| reach_submit req s s' r :
    reachable file s →
    submit_answer req s = (s', r) →
    reachable file s'.

(** The invariant of the data model. *)
Definition session_invariant (s : session) : Prop :=
  ∃ (total_questions current_index : Z) (rs : list AnswerRecord),
    s !! "total_questions" = Some (VInt total_questions) ∧
    s !! "current_index" = Some (VInt current_index) ∧
    s !! "answers" = Some (VAnswers rs) ∧
    Z.of_nat (length rs) = current_index ∧
    0 ≤ current_index ≤ total_questions.

(** The invariant together with what makes it inductive: the stored
    questions are as many as [total_questions]. *)
Definition session_wf (s : session) : Prop :=
  ∃ (qs : list Question) (rs : list AnswerRecord),
    s !! "total_questions" = Some (VInt (Z.of_nat (length qs))) ∧
    s !! "questions" = Some (VQuestions qs) ∧
    s !! "current_index" = Some (VInt (Z.of_nat (length rs))) ∧
    s !! "answers" = Some (VAnswers rs) ∧
    (length rs ≤ length qs)%nat.

(** The question list of a category, as [load_questions] finds it. *)
Definition questions_of (file : questions_file) (c : string) : list Question :=
  match file with
  | Some categories => default [] (categories !! c)
  | None => []
  end.

End Views.

(** ** The duration in the words of the specification

    The rounded time [t] is a decimal with two digits; the minutes are
    [floor (t / 60)] and the seconds are [floor (t mod 60)]. *)




(** The float that [round(x, 2)] returns when it keeps [n] hundredths. *)
Definition of_hundredths (n : Z) : float :=
  match n with
  | Zpos p => fdiv (S754_finite false p 0) (of_int (10 ^ 2))
  | _ => S754_zero false
  end.

(** Five minutes, in hundredths of a second. *)
Definition five_minutes : Z := 30000.

(** The rounded durations below this number of hundredths of a second,
    about 713 000 years, are those on which the float arithmetic of the
    shown duration is exact. *)
Definition hundredths_bound : Z := 2 ^ 51.

(** ** Canonical floats

    A positive float [m * 2^c] is canonical when [c] is the exponent that
    binary64 gives a mantissa of as many digits as [m] has; the operations
    of [SpecFloat] return canonical floats. [val m c] is the value of the
    float in units of [2^-1074], a whole number for every exponent of the
    format. *)

Definition canon (m : positive) (c : Z) : Prop :=
  fexp prec emax (Z.pos (digits2_pos m) + c) = c ∧ c ≤ 971.

Definition val (m : Z) (c : Z) : Z := m * 2 ^ (c + 1074).

(** The mantissas of [float(60)] and [float(100)]. *)
Definition m60 : positive := 8444249301319680.
Definition m100 : positive := 7036874417766400.

(** The second half of [binary_round_aux]: the rounded mantissa is
    renormalised. *)
Definition finish (s : bool) (m e : Z) : float :=
  let '(mrs, e') := shr_fexp prec emax m e loc_Exact in
  match shr_m mrs with
  | Z0 => S754_zero s
  | Zpos p => if e' <=? emax - prec then S754_finite s p e' else S754_infinity s
  | Zneg _ => S754_nan
  end.

(** ** Rounding to two places in the words of the specification *)

(** The exact value of a finite float, as a rational (0 for the others). *)
Definition float_value (x : float) : Q :=
  match x with
  | S754_finite s m e =>
      let v := if s then Z.neg m else Z.pos m in
      if 0 <=? e then inject_Z (v * 2 ^ e) else v # Z.to_pos (2 ^ (- e))
  | _ => 0
  end.

(** The float nearest to the decimal [n / 100], as the division of the
    integer [n] by 100 gives it; a zero gets the sign [s]. *)
Definition nearest_hundredths (s : bool) (n : Z) : float :=
  match n with
  | Z0 => S754_zero s
  | Zpos p => fdiv (S754_finite false p 0) (of_int 100)
  | Zneg p => fdiv (S754_finite true p 0) (of_int 100)
  end.

(** ** Sample data: a question file, requests and a parser for [int] *)

Module Demo.

Definition q1 : Question :=
  {| question := "2 + 2 = ?";
     options := [("A", "3"); ("B", "4"); ("C", "5"); ("D", "6")];
     answer := "B" |}.
Definition q2 : Question :=
  {| question := "3 * 3 = ?";
     options := [("A", "9"); ("B", "6"); ("C", "3"); ("D", "12")];
     answer := "A" |}.
Definition q3 : Question :=
  {| question := "10 / 2 = ?";
     options := [("A", "2"); ("B", "20"); ("C", "8"); ("D", "5")];
     answer := "D" |}.
Definition q4 : Question :=
  {| question := "7 - 4 = ?";
     options := [("A", "4"); ("B", "11"); ("C", "3"); ("D", "2")];
     answer := "C" |}.

Definition file : questions_file :=
  Some {[ "math" := [q1; q2; q3; q4]; "empty" := [] ]}.

(** [int] on strings of decimal digits with an optional minus sign. *)
Fixpoint digits (s : string) (acc : Z) : option Z :=
  match s with
  | EmptyString => Some acc
  | String c rest =>
      let d := Z.of_N (Ascii.N_of_ascii c) - 48 in
      if (0 <=? d) && (d <=? 9) then digits rest (10 * acc + d) else None
  end.

Definition int_of_str (s : string) : option Z :=
  match s with
  | EmptyString => None
  | String c rest =>
      if Ascii.eqb c (Ascii.ascii_of_nat 45)
      then (if bool_decide (rest = "") then None else Z.opp <$> digits rest 0)
      else digits s 0
  end.

Definition capitalize (s : string) : string := s.
Definition strip (s : string) : string := s.

(** A stand-in for the password hash: the stored hash is the password
    behind a prefix. *)
Definition check_password_hash (pwhash password : string) : bool :=
  bool_decide (pwhash = "hash:" +:+ password).
Definition validate_on_submit (f : LoginForm) : bool :=
  bool_decide (username_data f ≠ "" ∧ password_data f ≠ "").

Definition alice : User :=
  {| user_id := 1; email := "alice@example.org"; username := "alice";
     password := "hash:wonderland" |}.

(** A request of a logged-in user and one of an anonymous client. *)
Definition post (fields : list (string * string)) (now : Z) : request :=
  {| form := list_to_map fields; authenticated := true; clock := of_int now |}.
Definition anonymous (fields : list (string * string)) (now : Z) : request :=
  {| form := list_to_map fields; authenticated := false; clock := of_int now |}.

(** The session after [POST /start] with category math and 9 questions
    requested, at time 1000. *)
Definition started : session :=
  fst (start_quiz int_of_str file
         (post [("category", "math"); ("total_questions", "9")] 1000) ∅).

(** The session after the given answers were submitted in turn. *)
Definition submitted (answers : list string) : session :=
  foldl (λ s a, fst (submit_answer (post [("answer", a)] 1001) s)) started answers.

End Demo.

(** ** The other views: register, logout, index and category_questions *)

(** The submitted data of [forms.RegistrationForm]. *)
Record RegistrationForm := {
  reg_email : string;
  reg_username : string;
  reg_password : string
}.

(** What only templates are handed: the count per category, the current
    user and the registration form, besides the values above. *)
Inductive template_value :=
| TValue (v : value)
| TCounts (counts : gmap string Z)
| TUser (u : User)
| TRegistration (f : RegistrationForm).

(** What these views return: a response as above, or a page rendered from
    such values. *)
Inductive reply :=
| Plain (r : response)
| Page (template : string) (context : gmap string template_value).

(** [@login_required] around a view that returns a [reply]. *)
Definition login_required_reply (view : request → M reply) : request → M reply :=
  λ req,
    if authenticated req then view req
    else
      flash "Please log in to access this page." "message" ;;;
      ret (Plain (Redirect "login" [])).

(** What reading [questions.json] inside [load_questions] comes to: an
    exception that its [except] clause does not catch (KeyError for JSON
    without the key [categories], PermissionError, UnicodeDecodeError),
    which propagates to the caller, or a [questions_file]. *)
Inductive file_read :=
| ReadRaises (e : exn)
| ReadGives (file : questions_file).

Definition load_questions_read (read : file_read) (category : option string)
    : result loaded :=
  match read with
  | ReadRaises e => Raise e
  | ReadGives file => Ok (load_questions file category)
  end.

(** Modelled from the spec: the user table of [models.py], which is not
    among the sources; its email column is unique (section 3 of the
    specification). [db.session.add(new_user)] followed by
    [db.session.commit()] appends the row, or raises IntegrityError and
    adds nothing when a row already has that email. *)
Definition add_and_commit (users : list User) (new_user : User)
    : list User * result unit :=
  if existsb (λ u, String.eqb (email u) (email new_user)) users
  then (users, Raise IntegrityError)
  else (users ++ [new_user], Ok tt).

(** [max(...)] over Python ints; ValueError on an empty sequence. *)
Definition max_of (l : list Z) : result Z :=
  match l with
  | [] => Raise ValueError
  | x :: rest => Ok (foldl Z.max x rest)
  end.

Module Pages.
Section Pages.

Variable capitalize : string → string.
Variable strip : string → string.
(** werkzeug's [generate_password_hash], which salts: the salt it draws is
    an argument. *)
Variable generate_password_hash : string → string → string.
Variable validate_on_submit : RegistrationForm → bool.
(** The primary key the database gives a new row. *)
Variable next_id : list User → Z.

(** [POST /register]. The user table is the state. The lookup of an
    existing user takes the email as submitted; the row that is added
    holds the stripped one. *)
Definition register (users : list User) (salt : string) (f : RegistrationForm)
    : list User * result reply :=
  if validate_on_submit f then
    let existing_user := List.find (λ u, String.eqb (email u) (reg_email f)) users in
    match existing_user with
    | Some _ =>
        (users,
         Ok (Page "home/register.html"
               {[ "form" := TRegistration f;
                  "msg" := TValue (VStr "Email already exists. Please use a different email.") ]}))
    | None =>
        let new_user :=
          {| user_id := next_id users;
             email := strip (reg_email f);
             username := strip (reg_username f);
             password := generate_password_hash salt (strip (reg_password f)) |} in
        match add_and_commit users new_user with
        | (users', Ok _) => (users', Ok (Plain (Redirect "login" [])))
        | (users', Raise e) => (users', Raise e)
        end
    end
  else
    (users,
     Ok (Page "home/register.html"
           {[ "form" := TRegistration f; "msg" := TValue (VStr "") ]})).

(** [GET /logout] *)
Definition logout : request → M response :=
  login_required (λ req,
    (λ _ : session, (∅, Ok tt)) ;;;
    ret (Redirect "home" [])).

(** [GET /home] *)
Definition index (read : file_read) (current_user : User) : request → M reply :=
  login_required_reply (λ req,
    categories <- lift (load_questions_read read None) ;;
    if falsy categories then
      ret (Page "index.html"
             {[ "error" := TValue (VStr "Failed to load questions. Please check the questions file.") ]})
    else
      match categories with
      | Categories c =>
          let categories_count := (λ questions, Z.of_nat (length questions)) <$> c in
          max_questions <-
            lift (max_of ((λ questions, Z.of_nat (length questions)) <$> (map_to_list c).*2)) ;;
          ret (Page "index.html"
                 {[ "categories" := TCounts categories_count;
                    "max_questions" := TValue (VInt max_questions);
                    "user" := TUser current_user ]})
      | _ => raise AttributeError
      end).

(** [GET /category/<string:category>] *)
Definition category_questions (file : questions_file) (current_user : User)
    (category : string) : request → M reply :=
  login_required_reply (λ req,
    let questions := load_questions file (Some category) in
    if falsy questions then
      flash ("No questions found for " +:+ capitalize category +:+ "!") "error" ;;;
      ret (Plain (Redirect "index" []))
    else
      ret (Page "category.html"
             {[ "category" := TValue (VStr (capitalize category));
                "questions_count" := TValue (VInt (len questions));
                "user" := TUser current_user ]})).

End Pages.
End Pages.

(** ** A quiz under way *)

(** Every stored answer is the record of the question at its position. *)
Definition answers_match (qs : list Question) (rs : list AnswerRecord) : Prop :=
  ∀ (i : nat) (r : AnswerRecord),
    rs !! i = Some r →
    ∃ q, qs !! i = Some q ∧ r = record_of q (user_answer r).

(** What a session holds from a successful [start_quiz] on: the six quiz
    keys, with at least one question, no more answers than questions, and
    the answers matching the questions. *)
Definition quiz_in_session (s : session) (c : string) (qs : list Question)
    (rs : list AnswerRecord) (t : float) : Prop :=
  s !! "category" = Some (VStr c) ∧
  s !! "total_questions" = Some (VInt (Z.of_nat (length qs))) ∧
  s !! "questions" = Some (VQuestions qs) ∧
  s !! "current_index" = Some (VInt (Z.of_nat (length rs))) ∧
  s !! "answers" = Some (VAnswers rs) ∧
  s !! "start_time" = Some (VFloat t) ∧
  qs ≠ [] ∧ (length rs ≤ length qs)%nat ∧ answers_match qs rs.

(** The session after the requests were submitted in turn. *)
Definition submit_all (reqs : list request) (s : session) : session :=
  foldl (λ s req, fst (submit_answer req s)) s reqs.

(** ** More sample data *)

Module Sample.

Definition generate_password_hash (salt password : string) : string :=
  "hash:" +:+ password.
Definition validate_on_submit (f : RegistrationForm) : bool :=
  bool_decide (reg_email f ≠ "" ∧ reg_password f ≠ "").
Definition next_id (users : list User) : Z := Z.of_nat (length users) + 1.

Definition bob_form : RegistrationForm :=
  {| reg_email := "bob@example.org"; reg_username := "bob"; reg_password := "builder" |}.

(** A question whose stored answer is not one of the four labels. *)
Definition mislabelled : Question :=
  {| question := "1 + 1 = ?";
     options := [("A", "1"); ("B", "2"); ("C", "3"); ("D", "4")];
     answer := "b" |}.

End Sample.

(** ** Properties *)

Ltac run :=
  unfold submit_answer, show_question, show_results, start_quiz, login,
    login_required, session_append, bind, ret, raise, lift, session_get,
    session_set, session_contains, flash.

Lemma index_length {A} (l : list A) : index l (Z.of_nat (length l)) = None.
Proof.
  unfold index. rewrite (proj2 (Z.leb_le 0 _)) by lia.
  rewrite Nat2Z.id. apply lookup_ge_None. lia.
Qed.

Lemma index_lt {A} (l : list A) (i : nat) (x : A) :
  l !! i = Some x → index l (Z.of_nat i) = Some x.
Proof.
  intros H. unfold index. rewrite (proj2 (Z.leb_le 0 _)) by lia.
  by rewrite Nat2Z.id.
Qed.

(** *** Exact float arithmetic

    The steps of [divmod] by 60 on the float nearest to a number of
    hundredths: which of them are exact, and how far the others round. *)

(** The number of binary digits of a mantissa. *)
Lemma digits2_pos_bounds (p : positive) :
  2 ^ (Z.pos (digits2_pos p) - 1) ≤ Z.pos p < 2 ^ Z.pos (digits2_pos p).
Proof.
  induction p as [p IH|p IH|]; simpl digits2_pos.
  - rewrite Pos2Z.inj_succ. replace (Z.succ (Z.pos (digits2_pos p)) - 1)
      with (Z.succ (Z.pos (digits2_pos p) - 1)) by lia.
    rewrite !Z.pow_succ_r by lia. lia.
  - rewrite Pos2Z.inj_succ. replace (Z.succ (Z.pos (digits2_pos p)) - 1)
      with (Z.succ (Z.pos (digits2_pos p) - 1)) by lia.
    rewrite !Z.pow_succ_r by lia. lia.
  - simpl. lia.
Qed.

Lemma digits2_pos_unique (p : positive) (k : Z) :
  2 ^ (k - 1) ≤ Z.pos p < 2 ^ k → Z.pos (digits2_pos p) = k.
Proof.
  intros [Hlo Hhi]. pose proof (digits2_pos_bounds p) as [Hlo' Hhi'].
  assert (0 < k).
  { destruct (Z.lt_trichotomy k 0) as [?|[->|?]]; [|simpl in Hhi; lia|done].
    rewrite Z.pow_neg_r in Hhi by lia. lia. }
  destruct (Z.lt_trichotomy (Z.pos (digits2_pos p)) k) as [Hlt|[Heq|Hgt]]; [|done|].
  - assert (2 ^ Z.pos (digits2_pos p) ≤ 2 ^ (k - 1)) by (apply Z.pow_le_mono_r; lia). lia.
  - assert (2 ^ k ≤ 2 ^ (Z.pos (digits2_pos p) - 1)) by (apply Z.pow_le_mono_r; lia). lia.
Qed.

Lemma digits2_pos_mul_pow2 (m q : positive) (j : Z) :
  0 ≤ j → Z.pos q = Z.pos m * 2 ^ j →
  Z.pos (digits2_pos q) = Z.pos (digits2_pos m) + j.
Proof.
  intros Hj Hq. apply digits2_pos_unique. rewrite Hq.
  pose proof (digits2_pos_bounds m) as [Hlo Hhi].
  replace (Z.pos (digits2_pos m) + j - 1) with (Z.pos (digits2_pos m) - 1 + j) by lia.
  rewrite !Z.pow_add_r by lia.
  assert (0 < 2 ^ j) by (apply Z.pow_pos_nonneg; lia). nia.
Qed.

Lemma Zpos_iter_xO (m d : positive) :
  Z.pos (Pos.iter xO m d) = Z.pos m * 2 ^ Z.pos d.
Proof.
  induction d as [|d IH] using Pos.peano_ind.
  - simpl. lia.
  - rewrite Pos.iter_succ, Pos2Z.inj_succ, Z.pow_succ_r by lia.
    rewrite Pos2Z.inj_xO, IH. lia.
Qed.

Lemma iter_pos_iter {A} (f : A → A) (p : positive) (x : A) :
  SpecFloat.iter_pos f p x = Pos.iter f x p.
Proof.
  revert x. induction p as [p IH|p IH|]; intros x; simpl.
  - rewrite !IH. by rewrite <- !Pos.iter_swap.
  - by rewrite !IH.
  - done.
Qed.

Lemma shr_1_double (m : Z) :
  0 < m →
  shr_1 {| shr_m := 2 * m; shr_r := false; shr_s := false |}
  = {| shr_m := m; shr_r := false; shr_s := false |}.
Proof. intros Hm. destruct m as [|q|q]; try lia. done. Qed.

Lemma shr_exact (m : Z) (p : positive) :
  0 < m →
  SpecFloat.iter_pos shr_1 p {| shr_m := m * 2 ^ Z.pos p; shr_r := false; shr_s := false |}
  = {| shr_m := m; shr_r := false; shr_s := false |}.
Proof.
  intros Hm. rewrite iter_pos_iter.
  induction p as [|p IH] using Pos.peano_ind.
  - replace (m * 2 ^ 1) with (2 * m) by lia. simpl. by apply shr_1_double.
  - rewrite Pos.iter_succ_r. rewrite Pos2Z.inj_succ, Z.pow_succ_r by lia.
    replace (m * (2 * 2 ^ Z.pos p)) with (2 * (m * 2 ^ Z.pos p)) by lia.
    rewrite shr_1_double; [done|].
    apply Z.mul_pos_pos; [done|]. apply Z.pow_pos_nonneg; lia.
Qed.

Lemma fexp_eq (x : Z) : fexp prec emax x = Z.max (x - 53) (-1074).
Proof. reflexivity. Qed.

Lemma shr_fexp_noshift (m' : positive) (c : Z) (l : location) :
  fexp prec emax (Z.pos (digits2_pos m') + c) = c →
  shr_fexp prec emax (Z.pos m') c l = (shr_record_of_loc (Z.pos m') l, c).
Proof.
  intros Hc. unfold shr_fexp. simpl Zdigits2. rewrite Hc, Z.sub_diag. done.
Qed.

Lemma bra_exact (s : bool) (m' : positive) (c j z : Z) :
  0 ≤ j → z = Z.pos m' * 2 ^ j →
  fexp prec emax (Z.pos (digits2_pos m') + c) = c → c ≤ 971 →
  binary_round_aux prec emax s z (c - j) loc_Exact = S754_finite s m' c.
Proof.
  intros Hj Hz Hc Hmax.
  assert (0 < z) as Hpos.
  { rewrite Hz. apply Z.mul_pos_pos; [lia|]. apply Z.pow_pos_nonneg; lia. }
  destruct z as [|q|q]; try lia.
  assert (shr_fexp prec emax (Z.pos q) (c - j) loc_Exact
          = ({| shr_m := Z.pos m'; shr_r := false; shr_s := false |}, c)) as Hshr.
  { unfold shr_fexp. simpl Zdigits2.
    rewrite (digits2_pos_mul_pow2 m' q j Hj Hz).
    replace (Z.pos (digits2_pos m') + j + (c - j)) with (Z.pos (digits2_pos m') + c) by lia.
    rewrite Hc. replace (c - (c - j)) with j by lia.
    simpl shr_record_of_loc. unfold shr.
    destruct j as [|p|p]; try lia.
    - f_equal; [|lia]. f_equal. simpl in Hz. lia.
    - rewrite Hz, shr_exact by lia. f_equal. lia. }
  unfold binary_round_aux. rewrite Hshr. simpl round_nearest_even.
  rewrite shr_fexp_noshift by done. cbn [shr_record_of_loc shr_m].
  change (emax - prec) with 971.
  by rewrite (proj2 (Z.leb_le c 971)) by done.
Qed.

(** The canonical float of a positive value given with any exponent. *)
Lemma binary_round_canonical (s : bool) (m m' : positive) (e c : Z) :
  -1074 ≤ e → -1074 ≤ c →
  Z.pos m * 2 ^ (e + 1074) = Z.pos m' * 2 ^ (c + 1074) →
  fexp prec emax (Z.pos (digits2_pos m') + c) = c → c ≤ 971 →
  binary_round prec emax s m e = S754_finite s m' c.
Proof.
  intros He Hce Hval Hc Hmax. unfold binary_round.
  destruct (Z.le_gt_cases c e) as [Hle|Hgt].
  - (* the mantissa is shifted left *)
    assert (Z.pos m' = Z.pos m * 2 ^ (e - c)) as Hm.
    { replace (e + 1074) with ((e - c) + (c + 1074)) in Hval by lia.
      rewrite (Z.pow_add_r 2 (e - c) (c + 1074)) in Hval by lia.
      assert (0 < 2 ^ (c + 1074)) by (apply Z.pow_pos_nonneg; lia). nia. }
    pose proof (digits2_pos_mul_pow2 m m' (e - c) ltac:(lia) Hm) as Hd.
    replace (Z.pos (digits2_pos m) + e) with (Z.pos (digits2_pos m') + c) by lia.
    rewrite Hc. unfold shl_align.
    destruct (c - e) as [|d|d] eqn:Hce'; try lia.
    + assert (e = c) as -> by lia. rewrite Z.sub_diag in Hm. simpl in Hm.
      assert (m' = m) as -> by lia.
      rewrite <- (Z.sub_0_r c) at 1. apply bra_exact; try done; simpl; lia.
    + assert (Pos.iter xO m d = m') as ->.
      { apply Pos2Z.inj. rewrite Zpos_iter_xO, Hm.
        by replace (e - c) with (Z.pos d) by lia. }
      rewrite <- (Z.sub_0_r c) at 1. apply bra_exact; try done; simpl; lia.
  - (* the mantissa is shifted right, exactly *)
    assert (Z.pos m = Z.pos m' * 2 ^ (c - e)) as Hm.
    { replace (c + 1074) with ((c - e) + (e + 1074)) in Hval by lia.
      rewrite (Z.pow_add_r 2 (c - e) (e + 1074)) in Hval by lia.
      assert (0 < 2 ^ (e + 1074)) by (apply Z.pow_pos_nonneg; lia). nia. }
    pose proof (digits2_pos_mul_pow2 m' m (c - e) ltac:(lia) Hm) as Hd.
    replace (Z.pos (digits2_pos m) + e) with (Z.pos (digits2_pos m') + c) by lia.
    rewrite Hc. unfold shl_align.
    destruct (c - e) as [|d|d] eqn:Hce'; try lia.
    replace e with (c - Z.pos d) at 1 by lia.
    apply bra_exact; try done.
Qed.

Lemma canon_emin m c : canon m c → -1074 ≤ c.
Proof. intros [H _]. rewrite fexp_eq in H. lia. Qed.

Lemma canon_digits m c : canon m c → Z.pos m < 2 ^ 53.
Proof.
  intros [H _]. rewrite fexp_eq in H.
  pose proof (digits2_pos_bounds m) as [_ Hhi].
  assert (Z.pos (digits2_pos m) ≤ 53) by lia.
  assert (2 ^ Z.pos (digits2_pos m) ≤ 2 ^ 53) by (apply Z.pow_le_mono_r; lia). lia.
Qed.

Lemma pow2_pos (k : Z) : 0 ≤ k → 0 < 2 ^ k.
Proof. intros. apply Z.pow_pos_nonneg; lia. Qed.

(** Every positive integer below 2^53, at an exponent of the range, has a
    canonical float. *)
Lemma canon_exists (a : positive) (e : Z) :
  -1074 ≤ e → e ≤ 900 → Z.pos a < 2 ^ 53 →
  ∃ m' c, canon m' c ∧ val (Z.pos m') c = val (Z.pos a) e ∧ c ≤ e.
Proof.
  intros He He' Ha.
  pose proof (digits2_pos_bounds a) as [Hlo Hhi].
  assert (Z.pos (digits2_pos a) ≤ 53) as Hd.
  { destruct (Z.le_gt_cases (Z.pos (digits2_pos a)) 53); [done|].
    assert (2 ^ 53 ≤ 2 ^ (Z.pos (digits2_pos a) - 1)) by (apply Z.pow_le_mono_r; lia). lia. }
  set (c := Z.max (Z.pos (digits2_pos a) + e - 53) (-1074)).
  assert (c ≤ e) by lia. assert (-1074 ≤ c) by lia.
  pose proof (pow2_pos (e - c) ltac:(lia)).
  destruct (Z.pos a * 2 ^ (e - c)) as [|m'|m'] eqn:Hm'; try lia.
  exists m', c. split; [split|split].
  - rewrite fexp_eq. rewrite (digits2_pos_mul_pow2 a m' (e - c)) by (lia || done). lia.
  - lia.
  - unfold val. rewrite <- Hm'. rewrite <- Z.mul_assoc, <- Z.pow_add_r by lia.
    do 2 f_equal. lia.
  - done.
Qed.

Lemma binary_normalize_canonical (z e : Z) (m' : positive) (c : Z) :
  -1074 ≤ e → 0 < z → canon m' c → val (Z.pos m') c = val z e →
  binary_normalize prec emax z e false = S754_finite false m' c.
Proof.
  intros He Hz Hcanon Hval. destruct z as [|m|m]; try lia. simpl.
  destruct Hcanon as [Hc Hmax].
  apply binary_round_canonical; try done.
  - rewrite fexp_eq in Hc. lia.
Qed.

Lemma of_int_60 : of_int 60 = S754_finite false m60 (-47).
Proof. reflexivity. Qed.

Lemma val_m60 : val (Z.pos m60) (-47) = 60 * 2 ^ 1074.
Proof. unfold val. change (-47 + 1074) with 1027.
  change (Z.pos m60) with (60 * 2 ^ 47). rewrite <- Z.mul_assoc, <- Z.pow_add_r by lia. done. Qed.

Lemma val_shift (m e ez : Z) :
  -1074 ≤ ez → ez ≤ e → val (m * 2 ^ (e - ez)) ez = val m e.
Proof.
  intros H1 H2. unfold val. rewrite <- Z.mul_assoc, <- Z.pow_add_r by lia.
  do 2 f_equal. lia.
Qed.

Lemma shl_align_val (m : positive) (e ez : Z) :
  -1074 ≤ ez → ez ≤ e →
  Z.pos (fst (shl_align m e ez)) = Z.pos m * 2 ^ (e - ez).
Proof.
  intros H1 H2. unfold shl_align.
  destruct (ez - e) as [|d|d] eqn:Hd; try lia; simpl fst.
  - replace (e - ez) with 0 by lia. simpl. lia.
  - rewrite Zpos_iter_xO. by replace (e - ez) with (Z.pos d) by lia.
Qed.

(** [fmod] by 60 is exact. *)
Lemma fmod_60 (M : positive) (E : Z) :
  canon M E →
  let V := val (Z.pos M) E in
  (V mod (60 * 2 ^ 1074) = 0 ∧
   fmod (S754_finite false M E) (of_int 60) = S754_zero false) ∨
  (∃ m c, canon m c ∧ val (Z.pos m) c = V mod (60 * 2 ^ 1074) ∧
          fmod (S754_finite false M E) (of_int 60) = S754_finite false m c).
Proof.
  intros Hcanon V. pose proof (canon_emin _ _ Hcanon) as HE.
  pose proof (canon_digits _ _ Hcanon) as HM.
  rewrite of_int_60. unfold fmod.
  set (ez := Z.min E (-47)).
  set (ax := Z.pos M * 2 ^ (E - ez)). set (ay := Z.pos m60 * 2 ^ (-47 - ez)).
  assert (-1074 ≤ ez ≤ -47) as Hez by lia.
  assert (val ax ez = V) as Hax by (apply val_shift; lia).
  assert (val ay ez = 60 * 2 ^ 1074) as Hay.
  { unfold ay. rewrite val_shift by lia. apply val_m60. }
  pose proof (pow2_pos (ez + 1074) ltac:(lia)) as Hp.
  assert (0 < ay) as Hay0. { unfold ay. pose proof (pow2_pos (-47 - ez) ltac:(lia)). lia. }
  assert (val (ax mod ay) ez = V mod (60 * 2 ^ 1074)) as Hmod.
  { rewrite <- Hax, <- Hay. unfold val. by rewrite Z.mul_mod_distr_r by lia. }
  pose proof (Z.mod_pos_bound ax ay Hay0) as Hr.
  destruct (ax mod ay) as [|r|r] eqn:Hrem; try lia.
  - left. split; [|done]. rewrite <- Hmod. unfold val. lia.
  - right.
    assert (Z.pos r < 2 ^ 53) as Hr53.
    { destruct (Z.le_gt_cases E (-47)).
      - assert (ax = Z.pos M) as Hax' by (unfold ax; replace (E - ez) with 0 by lia; simpl; lia).
        assert (0 < ax) by lia.
        pose proof (Z.mod_le ax ay ltac:(lia) Hay0). lia.
      - assert (ay = Z.pos m60) as Hay' by (unfold ay; replace (-47 - ez) with 0 by lia; simpl; lia).
        assert (Z.pos m60 < 2 ^ 53) by done. lia. }
    destruct (canon_exists r ez ltac:(lia) ltac:(lia) Hr53) as (m & c & Hc & Hv & _).
    exists m, c. split; [done|]. split; [by rewrite Hv|].
    apply binary_normalize_canonical; try done; lia.
Qed.

Lemma fsub_canonical (M m m' : positive) (E c c' : Z) :
  -1074 ≤ E → -1074 ≤ c → canon m' c' →
  val (Z.pos m') c' = val (Z.pos M) E - val (Z.pos m) c →
  fsub (S754_finite false M E) (S754_finite false m c) = S754_finite false m' c'.
Proof.
  intros HE Hc Hcanon Hval. unfold fsub, SFsub, cond_Zopp.
  set (ez := Z.min E c).
  rewrite !shl_align_val by lia.
  apply binary_normalize_canonical; try done; try lia.
  - pose proof (pow2_pos (ez + 1074) ltac:(lia)).
    assert (0 < val (Z.pos m') c') by (unfold val; pose proof (pow2_pos (c' + 1074) ltac:(pose proof (canon_emin _ _ Hcanon); lia)); lia).
    rewrite Hval in H0. rewrite <- (val_shift (Z.pos M) E ez), <- (val_shift (Z.pos m) c ez) in H0 by lia.
    unfold val in H0. nia.
  - rewrite Hval, <- (val_shift (Z.pos M) E ez), <- (val_shift (Z.pos m) c ez) by lia.
    unfold val. lia.
Qed.

Lemma fsub_same_value (M m : positive) (E c : Z) :
  -1074 ≤ E → -1074 ≤ c →
  val (Z.pos M) E = val (Z.pos m) c →
  fsub (S754_finite false M E) (S754_finite false m c) = S754_zero false.
Proof.
  intros HE Hc Hval. unfold fsub, SFsub, cond_Zopp.
  set (ez := Z.min E c).
  rewrite !shl_align_val by lia.
  rewrite <- (val_shift (Z.pos M) E ez), <- (val_shift (Z.pos m) c ez) in Hval by lia.
  unfold val in Hval. pose proof (pow2_pos (ez + 1074) ltac:(lia)).
  assert (Z.pos M * 2 ^ (E - ez) = Z.pos m * 2 ^ (c - ez)) as -> by nia.
  by rewrite Z.sub_diag.
Qed.

Lemma shr_fexp_exact (m' q : positive) (c j : Z) :
  0 ≤ j → Z.pos q = Z.pos m' * 2 ^ j →
  fexp prec emax (Z.pos (digits2_pos m') + c) = c →
  shr_fexp prec emax (Z.pos q) (c - j) loc_Exact
  = ({| shr_m := Z.pos m'; shr_r := false; shr_s := false |}, c).
Proof.
  intros Hj Hz Hc. unfold shr_fexp. simpl Zdigits2.
  rewrite (digits2_pos_mul_pow2 m' q j Hj Hz).
  replace (Z.pos (digits2_pos m') + j + (c - j)) with (Z.pos (digits2_pos m') + c) by lia.
  rewrite Hc. replace (c - (c - j)) with j by lia.
  simpl shr_record_of_loc. unfold shr.
  destruct j as [|p|p]; try lia.
  - f_equal; [|lia]. f_equal. simpl in Hz. lia.
  - rewrite Hz, shr_exact by lia. f_equal. lia.
Qed.

Lemma binary_round_aux_finish (s : bool) (m e : Z) (l : location) :
  binary_round_aux prec emax s m e l =
    finish s (round_nearest_even (shr_m (fst (shr_fexp prec emax m e l)))
                (loc_of_shr_record (fst (shr_fexp prec emax m e l))))
           (snd (shr_fexp prec emax m e l)).
Proof. unfold binary_round_aux, finish. by destruct (shr_fexp prec emax m e l). Qed.

Lemma canon_53 (p : positive) (e : Z) :
  2 ^ 52 ≤ Z.pos p < 2 ^ 53 → -1074 ≤ e → e ≤ 971 → canon p e.
Proof.
  intros Hp He He'. split; [|done].
  rewrite (digits2_pos_unique p 53) by (change (53 - 1) with 52; lia).
  rewrite fexp_eq. lia.
Qed.

Lemma finish_53 (s : bool) (a e : Z) :
  2 ^ 52 ≤ a ≤ 2 ^ 53 → -1074 ≤ e → e ≤ 970 →
  ∃ M E, finish s a e = S754_finite s M E ∧ canon M E ∧
         val (Z.pos M) E = val a e.
Proof.
  intros Ha He He'. destruct a as [|p|p]; try lia.
  destruct (decide (Z.pos p = 2 ^ 53)) as [Heq|Hne].
  - exists 4503599627370496%positive, (e + 1).
    assert (canon 4503599627370496 (e + 1)) as Hcanon by (apply canon_53; lia).
    split; [|split; [done|]].
    + unfold finish. replace e with ((e + 1) - 1) at 1 by lia.
      rewrite (shr_fexp_exact 4503599627370496 p (e + 1) 1); [|lia|by rewrite Heq|apply Hcanon].
      cbn [shr_m]. change (emax - prec) with 971.
      by rewrite (proj2 (Z.leb_le (e + 1) 971)) by lia.
    + unfold val. rewrite Heq.
      replace (e + 1 + 1074) with (1 + (e + 1074)) by lia.
      rewrite (Z.pow_add_r 2 1 (e + 1074)) by lia.
      change (2 ^ 53) with (4503599627370496 * 2 ^ 1). lia.
  - exists p, e.
    assert (canon p e) as Hcanon by (apply canon_53; lia).
    split; [|split; [done|done]].
    unfold finish. replace e with (e - 0) at 1 by lia.
    rewrite (shr_fexp_exact p p e 0); [|lia|simpl; lia|apply Hcanon].
    cbn [shr_m]. change (emax - prec) with 971.
    by rewrite (proj2 (Z.leb_le e 971)) by lia.
Qed.

Lemma round_nearest_even_bounds (m : Z) (l : location) :
  m ≤ round_nearest_even m l ≤ m + 1.
Proof.
  unfold round_nearest_even. destruct l as [|[]]; try lia.
  destruct (Z.even m); lia.
Qed.

Lemma loc_of_shr_record_of_loc (m : Z) (l : location) :
  loc_of_shr_record (shr_record_of_loc m l) = l.
Proof. by destruct l as [|[]]. Qed.

Lemma shr_1_m (m : positive) (r s : bool) :
  shr_m (shr_1 {| shr_m := Z.pos m; shr_r := r; shr_s := s |}) = Z.pos m / 2.
Proof.
  destruct m as [p|p|]; simpl.
  - rewrite Pos2Z.inj_xI. apply (Z.div_unique _ 2 _ 1); lia.
  - rewrite Pos2Z.inj_xO. apply (Z.div_unique _ 2 _ 0); lia.
  - done.
Qed.

(** Rounding a quotient of 53 or 54 digits moves it by less than two
    units. *)
Lemma binary_round_aux_bounds (s : bool) (q e : Z) (l : location) :
  2 ^ 52 ≤ q < 2 ^ 54 → -1074 ≤ e → e ≤ 969 →
  ∃ M E, binary_round_aux prec emax s q e l = S754_finite s M E ∧ canon M E ∧
         val (2 * (q / 2)) e ≤ val (Z.pos M) E ≤ val (q + 2) e.
Proof.
  intros Hq He He'. rewrite binary_round_aux_finish.
  destruct q as [|p|p]; try lia.
  pose proof (pow2_pos (e + 1074) ltac:(lia)) as Hpow.
  destruct (Z.lt_ge_cases (Z.pos p) (2 ^ 53)) as [Hlt|Hge].
  - rewrite shr_fexp_noshift.
    2:{ rewrite (digits2_pos_unique p 53) by (change (53 - 1) with 52; lia).
        rewrite fexp_eq. lia. }
    cbn [fst snd]. rewrite loc_of_shr_record_of_loc.
    assert (shr_m (shr_record_of_loc (Z.pos p) l) = Z.pos p) as -> by (by destruct l as [|[]]).
    pose proof (round_nearest_even_bounds (Z.pos p) l) as Hr.
    destruct (finish_53 s (round_nearest_even (Z.pos p) l) e ltac:(lia) He ltac:(lia))
      as (M & E & Hfin & Hcanon & Hval).
    exists M, E. split; [done|]. split; [done|]. rewrite Hval. unfold val.
    pose proof (Z.mul_div_le (Z.pos p) 2 ltac:(lia)). nia.
  - assert (shr_fexp prec emax (Z.pos p) e l
            = (shr_1 (shr_record_of_loc (Z.pos p) l), e + 1)) as ->.
    { unfold shr_fexp. simpl Zdigits2.
      rewrite (digits2_pos_unique p 54) by (change (54 - 1) with 53; lia).
      rewrite fexp_eq. replace (Z.max (54 + e - 53) (-1074) - e) with 1 by lia. done. }
    cbn [fst snd].
    set (rec := shr_1 (shr_record_of_loc (Z.pos p) l)).
    assert (shr_m rec = Z.pos p / 2) as Hm.
    { unfold rec. destruct l as [|[]]; apply shr_1_m. }
    rewrite Hm.
    pose proof (round_nearest_even_bounds (Z.pos p / 2) (loc_of_shr_record rec)) as Hr.
    assert (2 ^ 52 ≤ Z.pos p / 2 < 2 ^ 53) as Hhalf.
    { split.
      - apply Z.div_le_lower_bound; [lia|]. change (2 * 2 ^ 52) with (2 ^ 53). lia.
      - apply Z.div_lt_upper_bound; [lia|]. change (2 * 2 ^ 53) with (2 ^ 54). lia. }
    destruct (finish_53 s (round_nearest_even (Z.pos p / 2) (loc_of_shr_record rec)) (e + 1)
                ltac:(lia) ltac:(lia) ltac:(lia))
      as (M & E & Hfin & Hcanon & Hval).
    exists M, E. split; [done|]. split; [done|]. rewrite Hval. unfold val.
    replace (e + 1 + 1074) with (1 + (e + 1074)) by lia.
    rewrite (Z.pow_add_r 2 1 (e + 1074)) by lia. change (2 ^ 1) with 2.
    pose proof (Z.mul_div_le (Z.pos p) 2 ltac:(lia)). nia.
Qed.

Lemma of_int_100 : of_int (10 ^ 2) = S754_finite false m100 (-46).
Proof. reflexivity. Qed.

Lemma div_eucl_eq (a b : Z) : Z.div_eucl a b = (a / b, a mod b).
Proof. unfold Z.div, Z.modulo. by destruct (Z.div_eucl a b). Qed.

(** The float nearest to [n / 100] has the whole part of [n / 100]. *)
Lemma fdiv_hundredths (p : positive) :
  Z.pos p < 2 ^ 51 →
  ∃ M E, fdiv (S754_finite false p 0) (of_int (10 ^ 2)) = S754_finite false M E ∧
         canon M E ∧
         (Z.pos p / 100) * 2 ^ 1074 ≤ val (Z.pos M) E < (Z.pos p / 100 + 1) * 2 ^ 1074.
Proof.
  intros Hp. rewrite of_int_100. unfold fdiv, SFdiv, SFdiv_core_binary.
  change (Zdigits2 (Z.pos m100)) with 53. simpl Zdigits2.
  pose proof (digits2_pos_bounds p) as Hd.
  set (d := Z.pos (digits2_pos p)) in *.
  assert (1 ≤ d ≤ 51) as Hd51.
  { split; [lia|]. destruct (Z.le_gt_cases d 51) as [|Hgt]; [done|].
    assert (2 ^ 51 ≤ 2 ^ (d - 1)) by (apply Z.pow_le_mono_r; lia). lia. }
  rewrite fexp_eq.
  replace (Z.min (Z.max (d + 0 - (53 + -46) - 53) (-1074)) (0 - -46)) with (d - 60) by lia.
  replace (0 - -46 - (d - 60)) with (106 - d) by lia.
  destruct (106 - d) as [|k|k] eqn:Hk; try lia.
  rewrite Z.shiftl_mul_pow2 by lia. rewrite div_eucl_eq. rewrite <- Hk.
  set (j := 60 - d).
  assert (Z.pos p * 2 ^ (106 - d) / Z.pos m100 = Z.pos p * 2 ^ j / 100) as ->.
  { replace (106 - d) with (j + 46) by lia. rewrite Z.pow_add_r by lia.
    change (Z.pos m100) with (100 * 2 ^ 46).
    rewrite Z.mul_assoc. by rewrite Z.div_mul_cancel_r by lia. }
  set (q := Z.pos p * 2 ^ j / 100).
  set (w := Z.pos p / 100).
  pose proof (pow2_pos j ltac:(lia)) as Hj.
  assert (2 ^ 59 ≤ Z.pos p * 2 ^ j < 2 ^ 60) as Hscaled.
  { replace 59 with ((d - 1) + j) by lia. replace 60 with (d + j) by lia.
    rewrite !Z.pow_add_r by lia. nia. }
  assert (2 ^ 52 ≤ q < 2 ^ 54) as Hq.
  { unfold q. split.
    - apply Z.div_le_lower_bound; [lia|].
      etrans; [|apply Hscaled]. done.
    - apply Z.div_lt_upper_bound; [lia|].
      eapply Z.lt_le_trans; [apply Hscaled|]. done. }
  destruct (binary_round_aux_bounds (xorb false false) q (d - 60)
              (new_location (Z.pos m100) (Z.pos p * 2 ^ (106 - d) mod Z.pos m100))
              Hq ltac:(lia) ltac:(lia)) as (M & E & Hfin & Hcanon & Hlo & Hhi).
  exists M, E. split; [done|]. split; [done|].
  unfold val in Hlo, Hhi.
  assert (2 ^ 1074 = 2 ^ j * 2 ^ (d - 60 + 1074)) as Hsplit.
  { rewrite <- Z.pow_add_r by lia. f_equal. lia. }
  pose proof (pow2_pos (d - 60 + 1074) ltac:(lia)) as Hpow.
  pose proof (Z.mul_div_le (Z.pos p) 100 ltac:(lia)) as Hw1.
  pose proof (Z.mod_pos_bound (Z.pos p) 100 ltac:(lia)) as Hw2.
  pose proof (Z.div_mod (Z.pos p) 100 ltac:(lia)) as Hw3. fold w in Hw1, Hw3.
  pose proof (Z.mul_div_le (Z.pos p * 2 ^ j) 100 ltac:(lia)) as Hq1. fold q in Hq1.
  assert (512 ≤ 2 ^ j) as Hj9.
  { change 512 with (2 ^ 9). apply Z.pow_le_mono_r; lia. }
  rewrite Hsplit. split.
  - (* w * 2^j is even and at most q *)
    assert (w * 2 ^ j ≤ 2 * (q / 2)) as Hle.
    { assert (2 ^ j = 2 * 2 ^ (j - 1)) as Hj2.
      { rewrite <- Z.pow_succ_r by lia. f_equal. lia. }
      assert (w * 2 ^ (j - 1) ≤ q / 2) as Hhalf.
      { apply Z.div_le_lower_bound; [lia|].
        unfold q. apply Z.div_le_lower_bound; [lia|]. rewrite Hj2 in *. nia. }
      rewrite Hj2. lia. }
    rewrite Z.mul_assoc. etrans; [|apply Hlo].
    apply Z.mul_le_mono_nonneg_r; lia.
  - assert (q + 2 < (w + 1) * 2 ^ j) as Hlt by nia.
    eapply Z.le_lt_trans; [apply Hhi|].
    rewrite Z.mul_assoc. apply Z.mul_lt_mono_pos_r; lia.
Qed.

(** Dividing sixty times a float by 60 is exact. *)
Lemma fdiv_60_exact (M mq : positive) (E cq : Z) :
  2 ^ 52 ≤ Z.pos M < 2 ^ 53 → -1068 ≤ E → E ≤ 971 → canon mq cq →
  val (Z.pos M) E = 60 * val (Z.pos mq) cq →
  fdiv (S754_finite false M E) (of_int 60) = S754_finite false mq cq.
Proof.
  intros HM HE HE' Hcanon Hval. rewrite of_int_60.
  pose proof (canon_emin _ _ Hcanon) as Hcq.
  pose proof (canon_digits _ _ Hcanon) as Hmq.
  pose proof (pow2_pos (E + 1074) ltac:(lia)) as HpE.
  pose proof (pow2_pos (cq + 1074) ltac:(lia)) as Hpc.
  unfold val in Hval.
  assert (E - 6 ≤ cq) as Hj.
  { destruct (Z.le_gt_cases (E - 6) cq) as [|Hgt]; [done|exfalso].
    assert (2 ^ (E + 1074) = 2 ^ (E - 7 - cq) * (2 ^ 7 * 2 ^ (cq + 1074))) as Hsplit.
    { rewrite <- !Z.pow_add_r by lia. f_equal. lia. }
    pose proof (pow2_pos (E - 7 - cq) ltac:(lia)) as Hp.
    rewrite Hsplit in Hval. change (2 ^ 7) with 128 in Hval.
    change (2 ^ 52) with 4503599627370496 in HM.
    change (2 ^ 53) with 9007199254740992 in Hmq. nia. }
  set (j := cq - E + 6).
  assert (Z.pos M * 2 ^ 53 = Z.pos mq * 2 ^ j * Z.pos m60) as Hdiv.
  { change (Z.pos m60) with (60 * 2 ^ 47).
    assert (2 ^ (cq + 1074) = 2 ^ j * 2 ^ (E - 6 + 1074)) as Hsplit.
    { rewrite <- Z.pow_add_r by lia. f_equal. lia. }
    assert (2 ^ (E + 1074) = 2 ^ 6 * 2 ^ (E - 6 + 1074)) as Hsplit'.
    { rewrite <- Z.pow_add_r by lia. f_equal. lia. }
    pose proof (pow2_pos (E - 6 + 1074) ltac:(lia)) as Hp.
    rewrite Hsplit, Hsplit' in Hval.
    assert (Z.pos M * 2 ^ 6 = 60 * Z.pos mq * 2 ^ j) as Heq by nia.
    change (2 ^ 53) with (2 ^ 6 * 2 ^ 47). lia. }
  unfold fdiv, SFdiv, SFdiv_core_binary.
  change (Zdigits2 (Z.pos m60)) with 53. simpl Zdigits2.
  rewrite (digits2_pos_unique M 53) by (change (53 - 1) with 52; lia).
  rewrite fexp_eq.
  replace (Z.min (Z.max (53 + E - (53 + -47) - 53) (-1074)) (E - -47)) with (E - 6) by lia.
  replace (E - -47 - (E - 6)) with 53 by lia. cbv iota.
  rewrite Z.shiftl_mul_pow2 by lia. rewrite div_eucl_eq.
  rewrite Hdiv, Z.div_mul, Z.mod_mul by done.
  change (new_location (Z.pos m60) 0) with loc_Exact.
  replace (E - 6) with (cq - j) by lia.
  apply bra_exact; try done; try lia; apply Hcanon.
Qed.

Lemma trunc_val (m : positive) (c : Z) :
  -1074 ≤ c → trunc (S754_finite false m c) = Some (val (Z.pos m) c / 2 ^ 1074).
Proof.
  intros Hc. unfold trunc, val. f_equal.
  destruct (Z.leb_spec 0 c) as [Hpos|Hneg].
  - rewrite Z.pow_add_r by lia. rewrite Z.mul_assoc, Z.div_mul; [done|].
    pose proof (pow2_pos 1074); lia.
  - assert (2 ^ 1074 = 2 ^ (- c) * 2 ^ (c + 1074)) as ->.
    { rewrite <- Z.pow_add_r by lia. f_equal. lia. }
    rewrite Z.div_mul_cancel_r; [done| |].
    + pose proof (pow2_pos (- c)); lia.
    + pose proof (pow2_pos (c + 1074)); lia.
Qed.

(** [floor] leaves a whole number as it is. *)
Lemma floor_integer (m : positive) (c q : Z) :
  canon m c → val (Z.pos m) c = q * 2 ^ 1074 →
  floor (S754_finite false m c) = S754_finite false m c.
Proof.
  intros Hcanon Hval. unfold floor.
  destruct (Z.leb_spec 0 c) as [Hpos|Hneg]; [done|].
  pose proof (canon_emin _ _ Hcanon) as Hc.
  assert (Z.pos m = q * 2 ^ (- c)) as Hm.
  { unfold val in Hval.
    assert (2 ^ 1074 = 2 ^ (- c) * 2 ^ (c + 1074)) as Hsplit.
    { rewrite <- Z.pow_add_r by lia. f_equal. lia. }
    rewrite Hsplit in Hval. pose proof (pow2_pos (c + 1074) ltac:(lia)). nia. }
  assert (Z.pos m / 2 ^ (- c) = q) as ->.
  { rewrite Hm. apply Z.div_mul. pose proof (pow2_pos (- c)); lia. }
  apply binary_normalize_canonical; done || lia.
Qed.

Lemma sign_binary_round_aux (m e : Z) (l : location) :
  sign (binary_round_aux prec emax false m e l) = false.
Proof.
  unfold binary_round_aux.
  destruct (shr_fexp prec emax m e l) as [mrs e'].
  destruct (shr_fexp prec emax _ e' loc_Exact) as [mrs' e''].
  destruct (shr_m mrs'); try done. by destruct (e'' <=? emax - prec).
Qed.

Lemma sign_fdiv_60 (M : positive) (E : Z) :
  sign (fdiv (S754_finite false M E) (of_int 60)) = false.
Proof.
  rewrite of_int_60. unfold fdiv, SFdiv.
  destruct (SFdiv_core_binary _ _ _ _ _ _) as [[mz ez] lz].
  apply sign_binary_round_aux.
Qed.

(** [divmod] by 60 of a float between the whole number [w] and [w + 1]:
    the quotient and the remainder of [w]. *)
Lemma divmod_60 (M : positive) (E w : Z) :
  canon M E → 0 ≤ w < 2 ^ 47 →
  w * 2 ^ 1074 ≤ val (Z.pos M) E < (w + 1) * 2 ^ 1074 →
  trunc (floordiv (S754_finite false M E) (of_int 60)) = Some (w / 60) ∧
  trunc (fmodulo (S754_finite false M E) (of_int 60)) = Some (w mod 60).
Proof.
  intros Hcanon Hw HV.
  pose proof (canon_emin _ _ Hcanon) as HE.
  pose proof (canon_digits _ _ Hcanon) as HM.
  pose proof (pow2_pos 1074 ltac:(lia)) as HK.
  set (V := val (Z.pos M) E) in *.
  set (Q := V / (60 * 2 ^ 1074)). set (R := V mod (60 * 2 ^ 1074)).
  assert (V / 2 ^ 1074 = w) as HVw.
  { symmetry. apply (Z.div_unique V (2 ^ 1074) w (V - w * 2 ^ 1074)); lia. }
  assert (Q = w / 60) as HQ.
  { unfold Q. rewrite (Z.mul_comm 60), <- Z.div_div by lia. by rewrite HVw. }
  assert (R / 2 ^ 1074 = w mod 60) as HR.
  { unfold R. rewrite (Z.mul_comm 60), Z.rem_mul_r by lia.
    rewrite HVw, (Z.mul_comm (2 ^ 1074)), Z.div_add by lia.
    rewrite Z.div_small; [lia|]. apply Z.mod_pos_bound; lia. }
  assert (V = 60 * 2 ^ 1074 * Q + R) as HVQR by (apply Z.div_mod; lia).
  assert (0 ≤ R < 60 * 2 ^ 1074) as HRb by (apply Z.mod_pos_bound; lia).
  assert (0 ≤ Q) as HQ0 by (rewrite HQ; apply Z.div_pos; lia).
  assert (Q < 2 ^ 47) as HQ47.
  { rewrite HQ. apply Z.div_lt_upper_bound; lia. }
  assert (0 < V) as HV0.
  { unfold V, val. pose proof (pow2_pos (E + 1074) ltac:(lia)). lia. }
  (* the quotient, as a float *)
  assert (∀ (m : positive) (c : Z),
            canon m c → val (Z.pos m) c = 60 * 2 ^ 1074 * Q → 0 < Q →
            ∃ mq cq, canon mq cq ∧ val (Z.pos mq) cq = Q * 2 ^ 1074 ∧
                     fdiv (S754_finite false m c) (of_int 60) = S754_finite false mq cq)
    as Hquot.
  { intros m c Hc Hv HQpos.
    destruct Q as [|pq|pq] eqn:HQeq; try lia.
    destruct (canon_exists pq 0 ltac:(lia) ltac:(lia)) as (mq & cq & Hcq & Hvq & _).
    { change (2 ^ 53) with (64 * 2 ^ 47). lia. }
    exists mq, cq. split; [done|]. split; [by rewrite Hvq|].
    pose proof (canon_emin _ _ Hc) as Hc0. pose proof (canon_digits _ _ Hc) as Hm.
    assert (-48 < c) as Hc48.
    { destruct (Z.lt_ge_cases (-48) c) as [|Hle]; [done|exfalso].
      unfold val in Hv.
      assert (2 ^ 1074 = 2 ^ (- 48 - c) * (2 ^ 48 * 2 ^ (c + 1074))) as Hsplit.
      { rewrite <- !Z.pow_add_r by lia. f_equal. lia. }
      pose proof (pow2_pos (c + 1074) ltac:(lia)).
      pose proof (pow2_pos (-48 - c) ltac:(lia)).
      rewrite Hsplit in Hv.
      change (2 ^ 53) with 9007199254740992 in Hm.
      change (2 ^ 48) with 281474976710656 in Hv. nia. }
    destruct Hc as [Hfexp Hmax].
    assert (Z.pos (digits2_pos m) = 53) as Hd.
    { rewrite fexp_eq in Hfexp. lia. }
    pose proof (digits2_pos_bounds m) as Hb. rewrite Hd in Hb.
    change (53 - 1) with 52 in Hb.
    apply fdiv_60_exact; try done; try lia.
    rewrite Hvq, Hv. unfold val. simpl (0 + 1074). lia. }
  assert (is_neg (of_int 60) = false) as Hneg60 by reflexivity.
  assert (zero_like (of_int 60) = S754_zero false) as Hzl by reflexivity.
  unfold floordiv, fmodulo, divmod.
  destruct (fmod_60 M E Hcanon) as [[Hzero Hmod]|(m & c & Hc & Hv & Hmod)];
    rewrite Hmod.
  - (* no remainder *)
    change (R = 0) in Hzero.
    change (fsub (S754_finite false M E) (S754_zero false)) with (S754_finite false M E).
    assert (0 < Q) as HQpos by nia.
    destruct (Hquot M E Hcanon ltac:(fold V; lia) HQpos)
      as (mq & cq & Hcq & Hvq & Hdiv).
    rewrite Hdiv. cbn [is_zero fst snd]. rewrite Hzl.
    pose proof (canon_emin _ _ Hcq) as Hcq0.
    rewrite (floor_integer mq cq Q) by done.
    rewrite fsub_same_value by done.
    change (SFltb (fdiv (of_int 1) (of_int 2)) (S754_zero false)) with false.
    cbn iota. rewrite trunc_val by done.
    rewrite Hvq, Z.div_mul by lia. rewrite HQ. split; [done|].
    simpl trunc. f_equal. rewrite <- HR, Hzero. done.
  - (* a remainder *)
    change (val (Z.pos m) c = R) in Hv.
    pose proof (canon_emin _ _ Hc) as Hc0.
    cbn [is_zero]. rewrite Hneg60.
    change (is_neg (S754_finite false m c)) with false. cbn [Bool.eqb negb].
    assert (trunc (S754_finite false m c) = Some (w mod 60)) as Htm.
    { rewrite trunc_val by done. by rewrite Hv, HR. }
    destruct (decide (Q = 0)) as [HQz|HQnz].
    + rewrite fsub_same_value by (done || fold V; lia).
      change (fdiv (S754_zero false) (of_int 60)) with (S754_zero false).
      cbn [is_zero fst snd]. unfold zero_like. rewrite sign_fdiv_60.
      split; [|done]. simpl. f_equal. lia.
    + assert (0 < Q) as HQpos by lia.
      destruct (canon_exists 60 0 ltac:(lia) ltac:(lia) ltac:(done)) as (_ & _ & _).
      assert (∃ pd : positive, Z.pos pd = 60 * Q) as [pd Hpd].
      { destruct (60 * Q) as [|pd|pd] eqn:Heq; try lia. by exists pd. }
      destruct (canon_exists pd 0 ltac:(lia) ltac:(lia)) as (md & cd & Hcd & Hvd & _).
      { rewrite Hpd. change (2 ^ 53) with (64 * 2 ^ 47). lia. }
      assert (val (Z.pos md) cd = 60 * 2 ^ 1074 * Q) as Hvd'.
      { rewrite Hvd. unfold val. simpl (0 + 1074). lia. }
      rewrite (fsub_canonical M m md E c cd) by (done || fold V; lia).
      destruct (Hquot md cd Hcd Hvd' HQpos) as (mq & cq & Hcq & Hvq & Hdiv).
      rewrite Hdiv. cbn [is_zero fst snd].
      pose proof (canon_emin _ _ Hcq) as Hcq0.
      rewrite (floor_integer mq cq Q) by done.
      rewrite fsub_same_value by done.
      change (SFltb (fdiv (of_int 1) (of_int 2)) (S754_zero false)) with false.
      cbn iota. rewrite trunc_val by done.
      rewrite Hvq, Z.div_mul by lia. by rewrite HQ.
Qed.

Lemma format_of_hundredths_exact (n : Z) :
  0 ≤ n < hundredths_bound →
  format_time_taken (of_hundredths n) =
    Ok (pretty (n / 6000) +:+ "m " +:+ pretty (n mod 6000 / 100) +:+ "s").
Proof.
  unfold hundredths_bound. intros Hn. destruct n as [|p|p]; try lia.
  - by vm_compute.
  - unfold of_hundredths.
    destruct (fdiv_hundredths p ltac:(lia)) as (M & E & Hdiv & Hcanon & HV).
    rewrite Hdiv.
    destruct (divmod_60 M E (Z.pos p / 100) Hcanon) as [Hq Hr]; [|done|].
    { split; [apply Z.div_pos; lia|].
      apply Z.div_lt_upper_bound; [lia|]. change (2 ^ 51) with (16 * 2 ^ 47) in Hn. lia. }
    unfold format_time_taken, int_of_float. rewrite Hq, Hr.
    rewrite Z.div_div by lia. change (100 * 60) with 6000.
    assert (Z.pos p mod 6000 / 100 = Z.pos p / 100 mod 60) as ->; [|done].
    change 6000 with (100 * 60). rewrite Z.rem_mul_r by lia.
    rewrite (Z.mul_comm 100 (_ mod 60)), Z.div_add by lia.
    rewrite Z.div_small; [lia|]. apply Z.mod_pos_bound; lia.
Qed.

Section Properties.

Variable int_of_str : string → option Z.
Variable capitalize : string → string.
Variable strip : string → string.
Variable check_password_hash : string → string → bool.
Variable validate_on_submit : LoginForm → bool.
Variable login_user : User → session → session.

(** *** Submitting an answer *)

Lemma submit_answer_in_range (req : request) (s : session) (i : Z)
    (qs : list Question) (q : Question) (rs : list AnswerRecord) :
  s !! "current_index" = Some (VInt i) →
  s !! "questions" = Some (VQuestions qs) →
  index qs i = Some q →
  s !! "answers" = Some (VAnswers rs) →
  submit_answer req s =
    (<["current_index" := VInt (i + 1)]>
       (<["answers" := VAnswers (rs ++ [record_of q (form req !! "answer")])]> s),
     Ok (Redirect "show_question" [])).
Proof.
  intros Hci Hqs Hq Hrs. run. rewrite Hci, Hqs. simpl. by rewrite Hq, Hrs.
Qed.

Lemma submit_answer_out_of_range (req : request) (s : session) (i : Z)
    (qs : list Question) :
  s !! "current_index" = Some (VInt i) →
  s !! "questions" = Some (VQuestions qs) →
  index qs i = None →
  submit_answer req s = (s, Raise IndexError).
Proof.
  intros Hci Hqs Hq. run. rewrite Hci, Hqs. simpl. by rewrite Hq.
Qed.

(** C10. Once the quiz is complete (the current index, the total and the
    number of stored questions are the same), a further [POST /submit]
    raises IndexError when it fetches the current question; no answer is
    appended, the index is not advanced and no redirect is returned. *)
Theorem submit_answer_after_completion (req : request) (s : session)
    (n : Z) (qs : list Question) :
  s !! "current_index" = Some (VInt n) →
  s !! "total_questions" = Some (VInt n) →
  s !! "questions" = Some (VQuestions qs) →
  Z.of_nat (length qs) = n →
  submit_answer req s = (s, Raise IndexError).
Proof.
  intros Hci _ Hqs <-.
  eapply submit_answer_out_of_range; [done..|]. apply index_length.
Qed.

(** C4. While a question is current, [submit_answer] appends exactly one
    record to the answers, for every submitted value (a missing field
    included) and without raising. The record is incorrect whenever the
    value is not one of A, B, C, D, and for a value among them it is
    correct exactly when the value is the question's answer label. *)
Theorem submit_answer_records (req : request) (s : session) (i : Z)
    (qs : list Question) (q : Question) (rs : list AnswerRecord) :
  s !! "current_index" = Some (VInt i) →
  s !! "questions" = Some (VQuestions qs) →
  index qs i = Some q →
  s !! "answers" = Some (VAnswers rs) →
  ∃ r : AnswerRecord,
    submit_answer req s =
      (<["current_index" := VInt (i + 1)]> (<["answers" := VAnswers (rs ++ [r])]> s),
       Ok (Redirect "show_question" [])) ∧
    length (rs ++ [r]) = S (length rs) ∧
    user_answer r = form req !! "answer" ∧
    ((∀ l, l ∈ labels → form req !! "answer" ≠ Some l) → is_correct r = false) ∧
    (∀ l, l ∈ labels → form req !! "answer" = Some l →
       (is_correct r = true ↔ l = answer q)).
Proof.
  intros Hci Hqs Hq Hrs. exists (record_of q (form req !! "answer")).
  split; [|split; [|split; [|split]]].
  - by eapply submit_answer_in_range.
  - rewrite length_app. simpl. lia.
  - reflexivity.
  - simpl. intros Hout. destruct (form req !! "answer") as [a|] eqn:Ha; [|done].
    unfold in_labels. case_bool_decide as Hin; [|done].
    by destruct (Hout a Hin).
  - simpl. intros l Hl ->. unfold in_labels.
    rewrite bool_decide_eq_true_2 by done. simpl.
    rewrite bool_decide_eq_true. split; congruence.
Qed.


(** *** Starting a quiz *)

Lemma falsy_load_questions (file : questions_file) (c : string) :
  c ≠ "" → falsy (load_questions file (Some c)) = bool_decide (questions_of file c = []).
Proof.
  intros Hc. unfold load_questions, questions_of. destruct file as [cats|]; simpl.
  - by rewrite bool_decide_eq_false_2.
  - done.
Qed.

(** What [start_quiz] does on its rejecting path. *)
Lemma start_quiz_rejected (file : questions_file) (req : request) (s : session)
    (c raw : string) (n : Z) :
  authenticated req = true →
  form req !! "category" = Some c →
  form req !! "total_questions" = Some raw →
  int_of_str raw = Some n →
  falsy (load_questions file (Some c)) || (n <=? 0) = true →
  start_quiz int_of_str file req s =
    (fst (flash "Invalid quiz parameters!" "error" s),
     Ok (Redirect "category_questions" [("category", c)])).
Proof.
  intros Hauth Hc Hraw Hn Hrej. run. rewrite Hauth, Hc, Hraw. simpl.
  rewrite Hn. simpl. by rewrite Hrej.
Qed.

(** What [start_quiz] does on its accepting path, for a named category. *)
Lemma start_quiz_accepted (file : questions_file) (req : request) (s : session)
    (c raw : string) (n : Z) :
  authenticated req = true →
  form req !! "category" = Some c →
  c ≠ "" →
  form req !! "total_questions" = Some raw →
  int_of_str raw = Some n →
  questions_of file c ≠ [] →
  0 < n →
  let qs := questions_of file c in
  let total := Z.min n (Z.of_nat (length qs)) in
  start_quiz int_of_str file req s =
    (<["start_time" := VFloat (clock req)]>
       (<["answers" := VAnswers []]>
          (<["current_index" := VInt 0]>
             (<["questions" := VQuestions (get_questions qs total)]>
                (<["total_questions" := VInt total]>
                   (<["category" := VStr c]> s))))),
     Ok (Redirect "show_question" [])).
Proof.
  intros Hauth Hc Hne Hraw Hn Hqs Hpos qs total. run.
  rewrite Hauth, Hc, Hraw. simpl. rewrite Hn. simpl.
  rewrite falsy_load_questions by done.
  rewrite bool_decide_eq_false_2 by done.
  rewrite (proj2 (Z.leb_gt n 0)) by lia. simpl.
  rewrite lookup_insert_eq.
  unfold load_questions, questions_of in *. destruct file as [cats|]; [|done].
  simpl. by rewrite bool_decide_eq_false_2.
Qed.

(** A successful [start_quiz] was an accepted one. *)
Lemma start_quiz_success_inv (file : questions_file) (req : request) (s s' : session) :
  start_quiz int_of_str file req s = (s', Ok (Redirect "show_question" [])) →
  ∃ (c raw : string) (n : Z),
    authenticated req = true ∧ form req !! "category" = Some c ∧ c ≠ "" ∧
    form req !! "total_questions" = Some raw ∧ int_of_str raw = Some n ∧
    questions_of file c ≠ [] ∧ 0 < n.
Proof.
  intros H. revert H. run.
  destruct (authenticated req) eqn:Hauth; [|simpl; congruence].
  destruct (form req !! "total_questions") as [raw|] eqn:Hraw; [|simpl; congruence].
  simpl. destruct (int_of_str raw) as [n|] eqn:Hn; [|simpl; congruence].
  simpl.
  destruct (falsy (load_questions file (form req !! "category")) || (n <=? 0)) eqn:Hrej.
  { simpl. destruct (form req !! "category"); congruence. }
  apply orb_false_iff in Hrej as [Hfalsy Hn0]. apply Z.leb_gt in Hn0.
  rewrite lookup_insert_eq. simpl.
  destruct (form req !! "category") as [c|] eqn:Hc.
  - destruct (decide (c = "")) as [->|Hne].
    + unfold load_questions in *. destruct file; simpl in *; congruence.
    + intros _. exists c, raw, n. repeat split; try done.
      rewrite falsy_load_questions in Hfalsy by done.
      by apply bool_decide_eq_false in Hfalsy.
  - unfold load_questions in *. destruct file; simpl in *; congruence.
Qed.

Lemma get_questions_spec (qs : list Question) (n : Z) :
  0 ≤ n → get_questions qs n = take (Z.to_nat (Z.min n (Z.of_nat (length qs)))) qs.
Proof.
  intros Hn. unfold get_questions, slice_to.
  destruct (Z.ltb_spec (Z.of_nat (length qs)) n).
  - rewrite (proj2 (Z.leb_le 0 _)) by lia. by rewrite Z.min_r by lia.
  - rewrite (proj2 (Z.leb_le 0 _)) by lia. by rewrite Z.min_l by lia.
Qed.

(** C1. For a category whose question list has [k] questions and a
    requested count [n > k], a successful [start_quiz] stores
    [total_questions = k] and stores as questions the first [min n k]
    questions of the category in file order, which here are all of
    them. *)
Theorem start_quiz_clamps (file : questions_file) (req : request) (s s' : session)
    (c raw : string) (n : Z) :
  form req !! "category" = Some c →
  form req !! "total_questions" = Some raw →
  int_of_str raw = Some n →
  Z.of_nat (length (questions_of file c)) < n →
  start_quiz int_of_str file req s = (s', Ok (Redirect "show_question" [])) →
  let qs := questions_of file c in
  let k := Z.of_nat (length qs) in
  s' !! "total_questions" = Some (VInt k) ∧
  s' !! "questions" = Some (VQuestions (take (Z.to_nat (Z.min n k)) qs)) ∧
  take (Z.to_nat (Z.min n k)) qs = qs.
Proof.
  intros Hc Hraw Hn Hlt Hstart qs k.
  destruct (start_quiz_success_inv _ _ _ _ Hstart)
    as (c' & raw' & n' & Hauth & Hc' & Hne & Hraw' & Hn' & Hqs & Hpos).
  assert (c' = c) as -> by congruence.
  assert (raw' = raw) as -> by congruence.
  assert (n' = n) as -> by congruence.
  rewrite (start_quiz_accepted file req s c raw n) in Hstart by done.
  injection Hstart as <-. fold qs in Hlt |- *. fold k in Hlt |- *.
  assert (Z.min n k = k) as Hmin by lia.
  rewrite Hmin. repeat split.
  - by simplify_map_eq.
  - simplify_map_eq. f_equal. f_equal.
    rewrite get_questions_spec by lia. f_equal. lia.
  - unfold k. rewrite Nat2Z.id. apply firstn_all.
Qed.



(** *** The session invariant *)

Lemma session_wf_invariant (s : session) : session_wf s → session_invariant s.
Proof.
  intros (qs & rs & Htq & _ & Hci & Hrs & Hle).
  exists (Z.of_nat (length qs)), (Z.of_nat (length rs)), rs.
  repeat split; try done; lia.
Qed.

Lemma start_quiz_wf (file : questions_file) (req : request) (s s' : session) :
  start_quiz int_of_str file req s = (s', Ok (Redirect "show_question" [])) →
  session_wf s'.
Proof.
  intros Hstart.
  destruct (start_quiz_success_inv _ _ _ _ Hstart)
    as (c & raw & n & Hauth & Hc & Hne & Hraw & Hn & Hqs & Hpos).
  rewrite (start_quiz_accepted file req s c raw n) in Hstart by done.
  injection Hstart as <-.
  set (qs := questions_of file c) in *.
  set (total := Z.min n (Z.of_nat (length qs))).
  assert (0 < length qs)%nat by (destruct qs; [done|simpl; lia]).
  assert (length (get_questions qs total) = Z.to_nat total) as Hlen.
  { rewrite get_questions_spec by lia. rewrite length_take. lia. }
  exists (get_questions qs total), []. repeat split.
  - simplify_map_eq. rewrite Hlen. do 2 f_equal. lia.
  - by simplify_map_eq.
  - by simplify_map_eq.
  - by simplify_map_eq.
  - simpl. lia.
Qed.

Lemma submit_answer_wf (req : request) (s s' : session) (r : result response) :
  session_wf s → submit_answer req s = (s', r) → session_wf s'.
Proof.
  intros (qs & rs & Htq & Hqs & Hci & Hrs & Hle) Hsubmit.
  destruct (decide (length rs = length qs)) as [Heq|Hlt].
  - rewrite (submit_answer_out_of_range req s (Z.of_nat (length rs)) qs)
      in Hsubmit; [|done..|rewrite Heq; apply index_length].
    injection Hsubmit as <- _. by exists qs, rs.
  - destruct (lookup_lt_is_Some_2 qs (length rs)) as [q Hq]; [lia|].
    rewrite (submit_answer_in_range req s _ qs q rs Hci Hqs (index_lt _ _ _ Hq) Hrs)
      in Hsubmit.
    injection Hsubmit as <- _.
    exists qs, (rs ++ [record_of q (form req !! "answer")]).
    rewrite length_app. simpl. repeat split.
    + by simplify_map_eq.
    + by simplify_map_eq.
    + simplify_map_eq. do 2 f_equal. lia.
    + by simplify_map_eq.
    + lia.
Qed.

Lemma reachable_wf (file : questions_file) (s : session) :
  reachable int_of_str file s → session_wf s.
Proof.
  induction 1 as [req s s' Hstart|req s s' r _ IH Hsubmit].
  - by eapply start_quiz_wf.
  - by eapply submit_answer_wf.
Qed.

(** X17. In every session reached by a successful [start_quiz] and any
    number of [submit_answer] calls, the answers are as many as the
    current index, and the index lies between 0 and [total_questions]. *)
Theorem reachable_invariant (file : questions_file) (s : session) :
  reachable int_of_str file s → session_invariant s.
Proof.
  intros Hreach. apply session_wf_invariant. by eapply reachable_wf.
Qed.

(** C3. The invariant does not hold after every [start_quiz]. A
    [POST /start] with an empty category name and a positive count, sent
    while a quiz is under way, passes the validation ([load_questions]
    returns the whole mapping for an empty name), writes [category] and
    [total_questions] and then raises at [questions[:n]]. The session it
    leaves has [current_index = 3] and [total_questions = 2]: the invariant
    held before the request and is broken after it. *)
Theorem start_quiz_raising_breaks_invariant :
  let s := Demo.submitted ["B"; "A"; "D"] in
  let req := Demo.post [("category", ""); ("total_questions", "2")] 2000 in
  let s' := fst (start_quiz Demo.int_of_str Demo.file req s) in
  session_invariant s ∧
  snd (start_quiz Demo.int_of_str Demo.file req s) = Raise TypeError ∧
  s' !! "current_index" = Some (VInt 3) ∧
  s' !! "answers" = s !! "answers" ∧
  s' !! "total_questions" = Some (VInt 2) ∧
  ¬ session_invariant s'.
Proof.
  intros s req s'. split; [|repeat split].
  - eexists 4, 3, _. repeat split; try reflexivity; by vm_compute.
  - intros (total & idx & rs & Htotal & Hidx & _ & _ & Hrange).
    assert (s' !! "total_questions" = Some (VInt 2)) as H2 by reflexivity.
    assert (s' !! "current_index" = Some (VInt 3)) as H3 by reflexivity.
    rewrite H2 in Htotal. rewrite H3 in Hidx.
    injection Htotal as <-. injection Hidx as <-. lia.
Qed.


(** *** Login *)

(** C7. A login attempt that fails because no user has the given email
    and one that fails because the user exists and the password check
    fails are answered alike: the session is left as it was and the login
    page is rendered again with the submitted form and the one message
    "Invalid email or password". The answer depends on the submitted form
    only, not on the user table. *)
Theorem login_failure_indistinguishable (users1 users2 : list User)
    (f : LoginForm) (s : session) :
  validate_on_submit f = true →
  (∀ u, u ∈ users1 → email u ≠ strip (username_data f)) →
  (∃ u, u ∈ users2 ∧ email u = strip (username_data f)) →
  (∀ u, u ∈ users2 → email u = strip (username_data f) →
     check_password_hash (password u) (strip (password_data f)) = false) →
  let failure :=
    (s, Ok (Render "home/index.html"
              {[ "form" := VForm f; "msg" := VStr "Invalid email or password" ]})) in
  login strip check_password_hash validate_on_submit login_user users1 f s = failure ∧
  login strip check_password_hash validate_on_submit login_user users2 f s = failure ∧
  login strip check_password_hash validate_on_submit login_user users1 f s =
    login strip check_password_hash validate_on_submit login_user users2 f s.
Proof.
  intros Hvalid Hnone _ Hbad failure.
  assert (login strip check_password_hash validate_on_submit login_user users1 f s
          = failure) as H1.
  { unfold login. rewrite Hvalid.
    destruct (List.find _ users1) as [u|] eqn:Hfind; [|done].
    apply List.find_some in Hfind as [Hin Heq].
    apply String.eqb_eq in Heq. apply list_elem_of_In in Hin.
    by destruct (Hnone u Hin). }
  assert (login strip check_password_hash validate_on_submit login_user users2 f s
          = failure) as H2.
  { unfold login. rewrite Hvalid.
    destruct (List.find _ users2) as [u|] eqn:Hfind; [|done].
    apply List.find_some in Hfind as [Hin Heq].
    apply String.eqb_eq in Heq. apply list_elem_of_In in Hin.
    by rewrite (Hbad u Hin Heq). }
  repeat split; try done. by rewrite H1, H2.
Qed.

(** *** Requests out of sequence *)

(** C8. In a session in which no quiz was ever started, [GET /quiz] and
    [GET /results] redirect to the category selection ([index]), but
    [POST /submit] raises KeyError: it reads [session['current_index']]
    without the check that [show_question] makes. *)
Theorem quiz_endpoints_before_start :
  let req := Demo.post [("answer", "A")] 1000 in
  show_question req ∅ = (∅, Ok (Redirect "index" [])) ∧
  show_results capitalize req ∅ = (∅, Ok (Redirect "index" [])) ∧
  submit_answer req ∅ = (∅, Raise (KeyError "current_index")).
Proof. repeat split. Qed.

(** C9. Without an authenticated session, [POST /start] and
    [GET /results] are answered by the redirect to the login view, but
    [GET /quiz] and [POST /submit] are not: on a session without a quiz
    the first redirects to [index] and the second raises KeyError, and on
    a session that holds a quiz the first renders the current question
    and the second records the answer. *)
Theorem quiz_endpoints_without_login :
  let anon := Demo.anonymous [("answer", "B")] 1000 in
  let denied (s : session) : session * result response :=
    (<["_flashes" := VFlashes [("message", "Please log in to access this page.")]]> s,
     Ok (Redirect "login" [])) in
  start_quiz int_of_str Demo.file anon ∅ = denied ∅ ∧
  show_results capitalize anon Demo.started = denied Demo.started ∧
  show_question anon ∅ = (∅, Ok (Redirect "index" [])) ∧
  submit_answer anon ∅ = (∅, Raise (KeyError "current_index")) ∧
  show_question anon Demo.started =
    (Demo.started,
     Ok (Render "quiz.html"
           {[ "question" := VQuestion Demo.q1;
              "question_number" := VInt 1;
              "total_questions" := VInt 4 ]})) ∧
  submit_answer anon Demo.started =
    (<["current_index" := VInt 1]>
       (<["answers" := VAnswers [record_of Demo.q1 (Some "B")]]> Demo.started),
     Ok (Redirect "show_question" [])).
Proof. repeat split. Qed.


(** *** Results *)

(** [show_results] on a session that holds answers, a total, a start
    time and a category: the page, or the exception of the first step
    that raises. *)
Lemma show_results_eq (req : request) (s : session) (rs : list AnswerRecord)
    (total : Z) (st : float) (c : string) :
  authenticated req = true →
  s !! "answers" = Some (VAnswers rs) →
  s !! "total_questions" = Some (VInt total) →
  s !! "start_time" = Some (VFloat st) →
  s !! "category" = Some (VStr c) →
  let correct := Z.of_nat (length (List.filter is_correct rs)) in
  show_results capitalize req s =
    (s,
     match int_truediv correct total with
     | Raise e => Raise e
     | Ok ratio =>
         match format_time_taken (round (fsub (clock req) st) 2) with
         | Raise e => Raise e
         | Ok time_taken =>
             Ok (Render "results.html"
                   {[ "category" := VStr (capitalize c);
                      "total_questions" := VInt total;
                      "correct" := VInt correct;
                      "score" := VFloat (round (fmul ratio (of_int 100)) 2);
                      "time_taken" := VStr time_taken;
                      "answers" := VAnswers rs ]})
         end
     end).
Proof.
  intros Hauth Hrs Htotal Hst Hc correct. run.
  rewrite Hauth, Hrs. simpl. rewrite Htotal, Hrs. simpl. fold correct.
  destruct (int_truediv correct total) as [ratio|e]; [|done].
  simpl. rewrite Hst. simpl.
  destruct (format_time_taken _) as [tt|e]; [|done].
  simpl. by rewrite Hc.
Qed.


Lemma format_of_hundredths (n : Z) :
  0 ≤ n < five_minutes →
  format_time_taken (of_hundredths n) =
    Ok (pretty (n / 6000) +:+ "m " +:+ pretty (n mod 6000 / 100) +:+ "s").
Proof.
  intros Hn. apply format_of_hundredths_exact.
  unfold five_minutes, hundredths_bound in *. lia.
Qed.


Lemma format_round_hundredths (x : float) :
  is_finite x = true →
  0 ≤ scaled_round x 2 →
  format_time_taken (round x 2) = format_time_taken (of_hundredths (scaled_round x 2)).
Proof.
  intros Hfin Hpos. destruct x as [sx|sx| |sx mx ex]; try done.
  - by destruct sx.
  - unfold round. destruct (scaled_round (S754_finite sx mx ex) 2) as [|p|p]; try done.
    by destruct sx.
Qed.


Lemma Qabs_hundredths (v n : Z) (P : positive) :
  2 * Z.abs (100 * v - n * Z.pos P) ≤ Z.pos P →
  (Qabs (100 * (v # P) - inject_Z n) <= 1 # 2)%Q ∧
  ((Qabs (100 * (v # P) - inject_Z n) == 1 # 2)%Q →
   2 * Z.abs (100 * v - n * Z.pos P) = Z.pos P).
Proof.
  intros H.
  unfold Qle, Qeq, Qabs, Qminus, Qplus, Qopp, Qmult, inject_Z. cbn [Qnum Qden].
  rewrite ?Pos.mul_1_r, ?Pos.mul_1_l, ?Z.mul_1_r, ?Z.mul_1_l.
  replace (100 * v + - n * Z.pos P) with (100 * v - n * Z.pos P) by lia.
  split; [lia|]. intros Heq. lia.
Qed.

(** [round(x, 2)] keeps the integer number of hundredths nearest to [x],
    the even one on a tie, and returns the float nearest to that
    decimal. *)
Lemma round_two_places (x : float) :
  is_finite x = true →
  ∃ n : Z,
    (Qabs (100 * float_value x - inject_Z n) <= 1 # 2)%Q ∧
    ((Qabs (100 * float_value x - inject_Z n) == 1 # 2)%Q → Z.even n = true) ∧
    round x 2 = nearest_hundredths (sign x) n.
Proof.
  intros Hfin. destruct x as [s|s| |s m e]; try done.
  - exists 0. repeat split; try done.
  - exists (scaled_round (S754_finite s m e) 2). split; [|split].
    3: { unfold round, nearest_hundredths. simpl sign.
         by destruct (scaled_round (S754_finite s m e) 2). }
    all: unfold scaled_round, float_value; change (10 ^ 2) with 100;
      set (v := if s then Z.neg m else Z.pos m);
      assert (Z.abs v = Z.pos m) as Hv by (unfold v; destruct s; lia);
      destruct (Z.leb_spec 0 e) as [He|He].
    + assert (0 ≤ 2 ^ e) by (apply Z.pow_nonneg; lia).
      replace (inject_Z (v * 2 ^ e)) with ((v * 2 ^ e) # 1) by done.
      apply (Qabs_hundredths (v * 2 ^ e) _ 1).
      unfold v. destruct s; lia.
    + assert (0 < 2 ^ (- e)) as Hden by (apply Z.pow_pos_nonneg; lia).
      set (den := 2 ^ (- e)) in *. set (num := Z.pos m * 100).
      pose proof (Z.div_mod num den ltac:(lia)) as Hdm.
      pose proof (Z.mod_pos_bound num den Hden) as Hr.
      apply Qabs_hundredths. rewrite Z2Pos.id by done.
      destruct (Z.compare_spec (2 * (num mod den)) den) as [Hc|Hc|Hc];
        [destruct (Z.even (num / den))|..];
        unfold v, num in *; destruct s; nia.
    + assert (0 ≤ 2 ^ e) by (apply Z.pow_nonneg; lia).
      replace (inject_Z (v * 2 ^ e)) with ((v * 2 ^ e) # 1) by done.
      intros Heq. apply (Qabs_hundredths (v * 2 ^ e) _ 1) in Heq.
      * unfold v in Heq. destruct s; lia.
      * unfold v. destruct s; lia.
    + assert (0 < 2 ^ (- e)) as Hden by (apply Z.pow_pos_nonneg; lia).
      set (den := 2 ^ (- e)) in *. set (num := Z.pos m * 100).
      pose proof (Z.div_mod num den ltac:(lia)) as Hdm.
      pose proof (Z.mod_pos_bound num den Hden) as Hr.
      intros Heq. apply Qabs_hundredths in Heq; rewrite Z2Pos.id in * by done.
      * destruct (Z.compare_spec (2 * (num mod den)) den) as [Hc|Hc|Hc].
        -- destruct (Z.even (num / den)) eqn:Heven.
           ++ destruct s; [by rewrite Z.even_opp|done].
           ++ assert (Z.even (num / den + 1) = true) as Hnext.
              { rewrite Z.even_add, Heven. done. }
              destruct s; [by rewrite Z.even_opp|done].
        -- exfalso. unfold v, num in *. destruct s; nia.
        -- exfalso. unfold v, num in *. destruct s; nia.
      * destruct (Z.compare_spec (2 * (num mod den)) den) as [Hc|Hc|Hc];
          [destruct (Z.even (num / den))|..];
          unfold v, num in *; destruct s; nia.
Qed.

(** C5. On a session that holds the answers of a quiz with
    [total_questions > 0], the results page carries
    [score = round(correct / total_questions * 100, 2)], where [correct]
    counts the records with [is_correct] true: the page is rendered with
    that score whenever the division and the time formatting return, a
    rendered page has that score, and the division does not raise
    ZeroDivisionError. The score is rounded to two places: it is the float
    nearest to [n / 100] for the integer [n] nearest to 100 times the exact
    value of [correct / total_questions * 100], the even one on a tie.
    3 correct of 4 gives 75.0, 1 of 3 gives 33.33, 2 of 3 gives 66.67, and
    1 of 32, the tie 3.125, gives 3.12. The last lines give the floats of
    these instances bit for bit: 1 / 3 * 100 is 0x1.0aaaaaaaaaaaap+5
    (33.33333333333333) and is rounded to 0x1.0aa3d70a3d70ap+5 (33.33);
    66.67 is 0x1.0aae147ae147bp+6 and 3.12 is 0x1.8f5c28f5c28f6p+1. *)
Theorem show_results_score (req : request) (s : session) (rs : list AnswerRecord)
    (total : Z) (st : float) (c : string) :
  authenticated req = true →
  s !! "answers" = Some (VAnswers rs) →
  s !! "total_questions" = Some (VInt total) →
  0 < total →
  s !! "start_time" = Some (VFloat st) →
  s !! "category" = Some (VStr c) →
  let correct := Z.of_nat (length (List.filter is_correct rs)) in
  let score (ratio : float) := round (fmul ratio (of_int 100)) 2 in
  (∀ ratio time_taken,
     int_truediv correct total = Ok ratio →
     format_time_taken (round (fsub (clock req) st) 2) = Ok time_taken →
     show_results capitalize req s =
       (s, Ok (Render "results.html"
                 {[ "category" := VStr (capitalize c);
                    "total_questions" := VInt total;
                    "correct" := VInt correct;
                    "score" := VFloat (score ratio);
                    "time_taken" := VStr time_taken;
                    "answers" := VAnswers rs ]}))) ∧
  (∀ s' template context,
     show_results capitalize req s = (s', Ok (Render template context)) →
     ∃ ratio, int_truediv correct total = Ok ratio ∧
              context !! "score" = Some (VFloat (score ratio))) ∧
  int_truediv correct total ≠ Raise ZeroDivisionError ∧
  int_truediv 3 4 = Ok (fdiv (of_int 3) (of_int 4)) ∧
  score (fdiv (of_int 3) (of_int 4)) = of_int 75 ∧
  (∀ ratio,
     is_finite (fmul ratio (of_int 100)) = true →
     ∃ n : Z,
       (Qabs (100 * float_value (fmul ratio (of_int 100)) - inject_Z n) <= 1 # 2)%Q ∧
       ((Qabs (100 * float_value (fmul ratio (of_int 100)) - inject_Z n) == 1 # 2)%Q →
        Z.even n = true) ∧
       score ratio = nearest_hundredths (sign (fmul ratio (of_int 100))) n) ∧
  int_truediv 1 3 = Ok (fdiv (of_int 1) (of_int 3)) ∧
  score (fdiv (of_int 1) (of_int 3)) = nearest_hundredths false 3333 ∧
  score (fdiv (of_int 2) (of_int 3)) = nearest_hundredths false 6667 ∧
  score (fdiv (of_int 1) (of_int 32)) = nearest_hundredths false 312 ∧
  fmul (fdiv (of_int 1) (of_int 3)) (of_int 100) =
    S754_finite false 4691249611844266 (-47) ∧
  score (fdiv (of_int 1) (of_int 3)) = S754_finite false 4690780486883082 (-47) ∧
  score (fdiv (of_int 2) (of_int 3)) = S754_finite false 4691484174324859 (-46) ∧
  score (fdiv (of_int 1) (of_int 32)) = S754_finite false 7025615418697974 (-51).
Proof.
  intros Hauth Hrs Htotal Hpos Hst Hc correct score.
  pose proof (show_results_eq req s rs total st c Hauth Hrs Htotal Hst Hc) as Heq.
  simpl in Heq. fold correct in Heq.
  split; [|split; [|split; [|split; [|split; [|repeat split]]]]].
  - intros ratio time_taken Hratio Htime. rewrite Heq, Hratio, Htime. done.
  - intros s' template context Hrun. rewrite Heq in Hrun.
    destruct (int_truediv correct total) as [ratio|e]; [|congruence].
    destruct (format_time_taken _) as [time_taken|e]; [|congruence].
    exists ratio. split; [done|].
    injection Hrun as _ _ <-. done.
  - unfold int_truediv. rewrite (proj2 (Z.eqb_neq total 0)) by lia.
    by destruct (fdiv _ _).
  - reflexivity.
  - reflexivity.
  - intros ratio Hfin. by apply round_two_places.
Qed.


End Properties.

(** ** The properties at the sample data *)

Lemma start_quiz_clamps_witness :
  Demo.started !! "total_questions" = Some (VInt 4) ∧
  Demo.started !! "questions" = Some (VQuestions [Demo.q1; Demo.q2; Demo.q3; Demo.q4]) ∧
  take 4 [Demo.q1; Demo.q2; Demo.q3; Demo.q4] = [Demo.q1; Demo.q2; Demo.q3; Demo.q4].
Proof.
  apply (start_quiz_clamps Demo.int_of_str Demo.file
           (Demo.post [("category", "math"); ("total_questions", "9")] 1000)
           ∅ Demo.started "math" "9" 9);
    reflexivity.
Defined.


Lemma reachable_invariant_witness :
  session_invariant (Demo.submitted ["B"; "A"]).
Proof.
  apply (reachable_invariant Demo.int_of_str Demo.file).
  apply (reach_submit _ _ (Demo.post [("answer", "A")] 1001)
           (Demo.submitted ["B"]) _ (Ok (Redirect "show_question" [])));
    [|reflexivity].
  apply (reach_submit _ _ (Demo.post [("answer", "B")] 1001)
           Demo.started _ (Ok (Redirect "show_question" [])));
    [|reflexivity].
  apply (reach_start _ _
           (Demo.post [("category", "math"); ("total_questions", "9")] 1000) ∅).
  reflexivity.
Defined.

Lemma submit_answer_records_witness :
  ∃ r : AnswerRecord,
    submit_answer (Demo.post [("answer", "B")] 1001) Demo.started =
      (<["current_index" := VInt 1]> (<["answers" := VAnswers [r]]> Demo.started),
       Ok (Redirect "show_question" [])) ∧
    is_correct r = true.
Proof.
  destruct (submit_answer_records (Demo.post [("answer", "B")] 1001) Demo.started
              0 [Demo.q1; Demo.q2; Demo.q3; Demo.q4] Demo.q1 []
              eq_refl eq_refl eq_refl eq_refl)
    as (r & Hrun & _ & _ & _ & Hlabel).
  exists r. split; [exact Hrun|].
  apply (Hlabel "B"); [|reflexivity|reflexivity].
  apply list_elem_of_further, list_elem_of_here.
Defined.

Lemma login_failure_indistinguishable_witness :
  let f := {| username_data := "alice@example.org"; password_data := "rabbit" |} in
  login Demo.strip Demo.check_password_hash Demo.validate_on_submit (λ _ s, s) [] f ∅ =
    login Demo.strip Demo.check_password_hash Demo.validate_on_submit (λ _ s, s)
      [Demo.alice] f ∅.
Proof.
  intros f.
  apply (login_failure_indistinguishable Demo.strip Demo.check_password_hash
           Demo.validate_on_submit (λ _ s, s) [] [Demo.alice] f ∅).
  - reflexivity.
  - intros u Hu. by apply elem_of_nil in Hu.
  - exists Demo.alice. split; [apply list_elem_of_here | reflexivity].
  - intros u Hu _. apply list_elem_of_singleton in Hu. subst u. reflexivity.
Defined.

Lemma submit_answer_after_completion_witness :
  let s := Demo.submitted ["B"; "A"; "D"; "A"] in
  submit_answer (Demo.post [("answer", "C")] 1100) s = (s, Raise IndexError).
Proof.
  intros s.
  apply (submit_answer_after_completion (Demo.post [("answer", "C")] 1100) s 4
           [Demo.q1; Demo.q2; Demo.q3; Demo.q4]);
    reflexivity.
Defined.

Lemma show_results_score_witness :
  let s := Demo.submitted ["B"; "A"; "D"; "A"] in
  ∃ context,
    show_results Demo.capitalize (Demo.post [] 1125) s =
      (s, Ok (Render "results.html" context)) ∧
    context !! "correct" = Some (VInt 3) ∧
    context !! "score" = Some (VFloat (of_int 75)).
Proof.
  intros s.
  destruct (show_results_score Demo.capitalize (Demo.post [] 1125) s
              (fold_left (λ rs qa, rs ++ [record_of qa.1 (Some qa.2)])
                 [(Demo.q1, "B"); (Demo.q2, "A"); (Demo.q3, "D"); (Demo.q4, "A")] [])
              4 (of_int 1000) "math"
              eq_refl eq_refl eq_refl eq_refl eq_refl eq_refl)
    as (Hpage & _).
  eexists. split.
  - apply (Hpage (fdiv (of_int 3) (of_int 4)) "2m 5s"); reflexivity.
  - split; reflexivity.
Defined.



(** ** Further properties of the views *)

Section MoreProperties.

Variable int_of_str : string → option Z.
Variable capitalize : string → string.
Variable strip : string → string.
Variable check_password_hash : string → string → bool.
Variable validate_on_submit : LoginForm → bool.
Variable login_user : User → session → session.
Variable generate_password_hash : string → string → string.
Variable validate_registration : RegistrationForm → bool.
Variable next_id : list User → Z.

(** *** get_questions *)

(** X1. For every list and every count, negative ones included,
    [get_questions] returns a prefix of the list: never more questions than
    there are, never in another order. A count [n >= 0] gives
    [min n (len questions)] questions; a negative count does not give an
    empty list but drops [-n] questions from the end. *)
Theorem get_questions_prefix (qs : list Question) (n : Z) :
  get_questions qs n `prefix_of` qs ∧
  Z.of_nat (length (get_questions qs n)) =
    if 0 <=? n then Z.min n (Z.of_nat (length qs))
    else Z.max 0 (Z.of_nat (length qs) + n).
Proof.
  unfold get_questions, slice_to.
  destruct (Z.ltb_spec (Z.of_nat (length qs)) n) as [Hlt|Hge].
  - rewrite (proj2 (Z.leb_le 0 (Z.of_nat (length qs)))) by lia.
    rewrite (proj2 (Z.leb_le 0 n)) by lia.
    split; [apply prefix_take|]. rewrite length_take. lia.
  - destruct (Z.leb_spec 0 n) as [Hpos|Hneg].
    + split; [apply prefix_take|]. rewrite length_take. lia.
    + split; [apply prefix_take|]. rewrite length_take. lia.
Qed.

(** X2. Taking [m] of the first [n] questions is taking the first
    [min n m]: for counts [n, m >= 0],
    [get_questions (get_questions qs n) m = get_questions qs (min n m)];
    in particular [get_questions] is idempotent in its list. *)
Theorem get_questions_compose (qs : list Question) (n m : Z) :
  0 ≤ n → 0 ≤ m →
  get_questions (get_questions qs n) m = get_questions qs (Z.min n m) ∧
  get_questions (get_questions qs n) n = get_questions qs n.
Proof.
  intros Hn Hm.
  assert (∀ a b, 0 ≤ a → 0 ≤ b →
            get_questions (get_questions qs a) b = get_questions qs (Z.min a b)) as H.
  { intros a b Ha Hb. rewrite !get_questions_spec by lia.
    rewrite take_take, length_take. f_equal. lia. }
  split; [by apply H|]. rewrite H by done. by rewrite Z.min_id.
Qed.

(** *** What the quiz views change in the session *)

(** X3. A successful [start_quiz] begins afresh whatever the session held:
    the index is 0, the answers are empty, the start time is the clock of
    the request and the category is the submitted one. Every key of the
    session that is not one of the six quiz keys is left as it was. *)
Theorem start_quiz_resets (file : questions_file) (req : request) (s s' : session) :
  start_quiz int_of_str file req s = (s', Ok (Redirect "show_question" [])) →
  s' !! "current_index" = Some (VInt 0) ∧
  s' !! "answers" = Some (VAnswers []) ∧
  s' !! "start_time" = Some (VFloat (clock req)) ∧
  (∃ c, form req !! "category" = Some c ∧ s' !! "category" = Some (VStr c)) ∧
  (∀ k, k ∉ quiz_keys → s' !! k = s !! k).
Proof.
  intros Hstart.
  destruct (start_quiz_success_inv _ _ _ _ _ Hstart)
    as (c & raw & n & Hauth & Hc & Hne & Hraw & Hn & Hqs & Hpos).
  rewrite (start_quiz_accepted int_of_str file req s c raw n) in Hstart by done.
  injection Hstart as <-.
  split; [by simplify_map_eq|]. split; [by simplify_map_eq|].
  split; [by simplify_map_eq|]. split; [exists c; by simplify_map_eq|].
  intros k Hk. unfold quiz_keys in Hk.
  rewrite !not_elem_of_cons in Hk. destruct Hk as (? & ? & ? & ? & ? & ? & _).
  by rewrite !lookup_insert_ne by done.
Qed.

(** X4. [submit_answer] writes two keys only: whatever the session and the
    request, every key other than ["answers"] and ["current_index"] is left
    as it was (the questions, the total, the category and the start time
    among them), and a submit that raises leaves the whole session as it
    was. *)
Theorem submit_answer_frame (req : request) (s s' : session) (r : result response) :
  submit_answer req s = (s', r) →
  (∀ k, k ≠ "answers" → k ≠ "current_index" → s' !! k = s !! k) ∧
  (∀ e, r = Raise e → s' = s).
Proof.
  unfold submit_answer, session_append, bind, ret, raise, lift, session_get, session_set.
  destruct (s !! "current_index") as [ci|]; [|intros [= <- <-]; by split].
  destruct (s !! "questions") as [qs|]; [|intros [= <- <-]; by split].
  destruct (subscript qs ci) as [q|e0] eqn:Hsub; [|intros [= <- <-]; by split].
  destruct (s !! "answers") as [rs|]; [|intros [= <- <-]; by split].
  destruct rs as [| | | | | |rs| |]; try (intros [= <- <-]; by split).
  destruct ci as [|i| | | | | | |]; simpl in *; try (destruct qs; discriminate).
  intros [= <- <-]. split; [|done].
  intros k Hk1 Hk2. by rewrite !lookup_insert_ne by done.
Qed.

(** X5. The two views that show the quiz never write the session:
    [show_question] leaves it as it was for every request and session,
    whatever it returns or raises, and so does [show_results] for a
    logged-in request. *)
Theorem quiz_views_read_only (req : request) (s : session) :
  fst (show_question req s) = s ∧
  (authenticated req = true → fst (show_results capitalize req s) = s).
Proof.
  split.
  - unfold show_question, bind, ret, raise, lift, session_get, session_contains.
    simpl. destruct (s !! "current_index") as [ci|] eqn:Hci; simpl; [|done].
    rewrite ?Hci. destruct (s !! "total_questions") as [tq|]; simpl; [|done].
    destruct (as_int ci) as [i|]; simpl; [|done].
    destruct (as_int tq) as [t|]; simpl; [|done].
    destruct (t <=? i); simpl; [done|].
    destruct (s !! "questions") as [qs|]; simpl; [|done].
    by destruct (subscript qs ci).
  - intros Hauth.
    unfold show_results, login_required, bind, ret, raise, lift, session_get,
      session_contains.
    rewrite Hauth. simpl. destruct (s !! "answers") as [rs|] eqn:Hrs; simpl; [|done].
    destruct (s !! "total_questions") as [tq|]; simpl; [|done].
    rewrite ?Hrs. simpl.
    destruct rs as [| | | | | |rs| |]; simpl; try done.
    destruct (as_int tq) as [t|]; simpl; [|done].
    destruct (int_truediv _ t); simpl; [|done].
    destruct (s !! "start_time") as [st|]; simpl; [|done].
    destruct (as_float st); simpl; [|done].
    destruct (format_time_taken _); simpl; [|done].
    destruct (s !! "category") as [c|]; simpl; [|done].
    by destruct c.
Qed.

(** *** A quiz from start to end *)

Lemma start_quiz_quiz_in_session (file : questions_file) (req : request)
    (s s' : session) :
  start_quiz int_of_str file req s = (s', Ok (Redirect "show_question" [])) →
  ∃ c qs, quiz_in_session s' c qs [] (clock req) ∧
          qs `prefix_of` questions_of file c.
Proof.
  intros Hstart.
  destruct (start_quiz_success_inv _ _ _ _ _ Hstart)
    as (c & raw & n & Hauth & Hc & Hne & Hraw & Hn & Hqs & Hpos).
  rewrite (start_quiz_accepted int_of_str file req s c raw n) in Hstart by done.
  injection Hstart as <-.
  set (qs := questions_of file c) in *.
  set (total := Z.min n (Z.of_nat (length qs))).
  assert (0 < length qs)%nat by (destruct qs; [done|simpl; lia]).
  assert (get_questions qs total = take (Z.to_nat total) qs) as Hget.
  { rewrite get_questions_spec by lia. f_equal. lia. }
  exists c, (get_questions qs total). split.
  - unfold quiz_in_session. repeat split.
    + by simplify_map_eq.
    + simplify_map_eq. rewrite Hget, length_take. do 2 f_equal. lia.
    + by simplify_map_eq.
    + by simplify_map_eq.
    + by simplify_map_eq.
    + by simplify_map_eq.
    + rewrite Hget. intros Hnil. apply (f_equal length) in Hnil.
      rewrite length_take in Hnil. simpl in Hnil. lia.
    + simpl. lia.
    + intros i r Hr. by rewrite lookup_nil in Hr.
  - rewrite Hget. apply prefix_take.
Qed.

Lemma submit_answer_quiz_in_session (req : request) (s : session) (c : string)
    (qs : list Question) (rs : list AnswerRecord) (t : float) :
  quiz_in_session s c qs rs t →
  (∃ q, qs !! length rs = Some q ∧
        submit_answer req s =
          (<["current_index" := VInt (Z.of_nat (length rs) + 1)]>
             (<["answers" := VAnswers (rs ++ [record_of q (form req !! "answer")])]> s),
           Ok (Redirect "show_question" [])) ∧
        quiz_in_session (fst (submit_answer req s)) c qs
          (rs ++ [record_of q (form req !! "answer")]) t) ∨
  (length rs = length qs ∧ submit_answer req s = (s, Raise IndexError)).
Proof.
  intros (Hc & Htq & Hqs & Hci & Hrs & Hst & Hne & Hle & Hmatch).
  destruct (decide (length rs = length qs)) as [Heq|Hlt].
  - right. split; [done|].
    apply (submit_answer_out_of_range req s (Z.of_nat (length rs)) qs); [done..|].
    rewrite Heq. apply index_length.
  - left. destruct (lookup_lt_is_Some_2 qs (length rs)) as [q Hq]; [lia|].
    exists q. split; [done|].
    pose proof (submit_answer_in_range req s _ qs q rs Hci Hqs (index_lt _ _ _ Hq) Hrs)
      as Hrun.
    split; [done|]. rewrite Hrun. simpl.
    unfold quiz_in_session. rewrite length_app. simpl. repeat split.
    + by simplify_map_eq.
    + by simplify_map_eq.
    + by simplify_map_eq.
    + simplify_map_eq. do 2 f_equal. lia.
    + by simplify_map_eq.
    + by simplify_map_eq.
    + done.
    + lia.
    + intros i r Hr. apply lookup_app_Some in Hr as [Hr|[Hlen Hr]].
      * by apply Hmatch.
      * apply list_lookup_singleton_Some in Hr as [Hi <-].
        exists q. split; [|done]. by replace i with (length rs) by lia.
Qed.

Lemma reachable_quiz_in_session (file : questions_file) (s : session) :
  reachable int_of_str file s →
  ∃ c qs rs t, quiz_in_session s c qs rs t ∧ qs `prefix_of` questions_of file c.
Proof.
  induction 1 as [req s s' Hstart|req s s' r _ IH Hsubmit].
  - destruct (start_quiz_quiz_in_session _ _ _ _ Hstart) as (c & qs & Hquiz & Hpre).
    by exists c, qs, [], (clock req).
  - destruct IH as (c & qs & rs & t & Hquiz & Hpre).
    destruct (submit_answer_quiz_in_session req s c qs rs t Hquiz)
      as [(q & _ & _ & Hnext)|[_ Hsame]].
    + rewrite Hsubmit in Hnext. simpl in Hnext. by eexists c, qs, _, t.
    + rewrite Hsame in Hsubmit. injection Hsubmit as <- _. by exists c, qs, rs, t.
Qed.

(** X6. In every session reached by a successful [start_quiz] and any
    number of [submit_answer] calls, the stored questions are a prefix of
    the category's list in the file, there is at least one, and every
    stored answer belongs to the question at its position: it carries that
    question's text, options and answer label, and it is marked correct
    exactly when the submitted value is one of A, B, C, D and is that
    label. *)
Theorem reachable_answers_match (file : questions_file) (s : session) :
  reachable int_of_str file s →
  ∃ (c : string) (qs : list Question) (rs : list AnswerRecord),
    s !! "category" = Some (VStr c) ∧
    s !! "questions" = Some (VQuestions qs) ∧
    s !! "answers" = Some (VAnswers rs) ∧
    qs ≠ [] ∧
    qs `prefix_of` questions_of file c ∧
    ∀ (i : nat) (r : AnswerRecord),
      rs !! i = Some r →
      ∃ q, qs !! i = Some q ∧
           a_question r = question q ∧
           a_options r = options q ∧
           correct_answer r = answer q ∧
           (is_correct r = true ↔
              user_answer r = Some (answer q) ∧ answer q ∈ labels).
Proof.
  intros Hreach.
  destruct (reachable_quiz_in_session file s Hreach)
    as (c & qs & rs & t & (Hc & _ & Hqs & _ & Hrs & _ & Hne & _ & Hmatch) & Hpre).
  exists c, qs, rs. repeat split; try done.
  intros i r Hr. destruct (Hmatch i r Hr) as (q & Hq & Hrec).
  exists q. split; [done|].
  destruct r as [aq ua ca ic ao]. simpl in *. injection Hrec as -> -> -> ->.
  repeat (split; [done|]).
  unfold in_labels. destruct ua as [a|]; simpl.
  - destruct (decide (a ∈ labels)) as [Hin|Hout].
    + rewrite (bool_decide_eq_true_2 (a ∈ labels)) by done. simpl.
      rewrite bool_decide_eq_true. split; [intros [= ->]; done|intros [? _]; done].
    + rewrite (bool_decide_eq_false_2 (a ∈ labels)) by done. simpl.
      split; [done|]. intros [[= ->] ?]. done.
  - split; [done|]. intros [? _]. done.
Qed.

Lemma show_question_complete (req : request) (s : session) (i total : Z) :
  s !! "current_index" = Some (VInt i) →
  s !! "total_questions" = Some (VInt total) →
  total ≤ i →
  show_question req s = (s, Ok (Redirect "show_results" [])).
Proof.
  intros Hci Htq Hle.
  unfold show_question, bind, ret, raise, lift, session_get, session_contains.
  rewrite Hci. simpl. rewrite Hci. simpl. rewrite Htq. simpl.
  by rewrite (proj2 (Z.leb_le _ _)) by lia.
Qed.

Lemma show_question_current (req : request) (s : session) (i total : Z)
    (qs : list Question) (q : Question) :
  s !! "current_index" = Some (VInt i) →
  s !! "total_questions" = Some (VInt total) →
  i < total →
  s !! "questions" = Some (VQuestions qs) →
  index qs i = Some q →
  show_question req s =
    (s, Ok (Render "quiz.html"
              {[ "question" := VQuestion q;
                 "question_number" := VInt (i + 1);
                 "total_questions" := VInt total ]})).
Proof.
  intros Hci Htq Hlt Hqs Hq.
  unfold show_question, bind, ret, raise, lift, session_get, session_contains.
  rewrite Hci. simpl. rewrite Hci. simpl. rewrite Htq. simpl.
  rewrite (proj2 (Z.leb_gt _ _)) by lia.
  rewrite Hqs. simpl. by rewrite Hq.
Qed.

(** X7. In every such session and for every request the quiz is in one of
    two states. Either a question is current: [show_question] renders the
    question at the current index, which is the question at that position
    of the category in the file, with [question_number] one more than the
    index, and [submit_answer] is accepted and advances the index by one.
    Or the quiz is complete: [show_question] redirects to the results and
    [submit_answer] raises IndexError. Neither view sends a started quiz
    back to the category selection. *)
Theorem quiz_progress (file : questions_file) (s : session) (req : request) :
  reachable int_of_str file s →
  (∃ (c : string) (q : Question) (i total : Z),
     0 ≤ i < total ∧
     s !! "category" = Some (VStr c) ∧
     s !! "current_index" = Some (VInt i) ∧
     questions_of file c !! Z.to_nat i = Some q ∧
     show_question req s =
       (s, Ok (Render "quiz.html"
                 {[ "question" := VQuestion q;
                    "question_number" := VInt (i + 1);
                    "total_questions" := VInt total ]})) ∧
     snd (submit_answer req s) = Ok (Redirect "show_question" []) ∧
     fst (submit_answer req s) !! "current_index" = Some (VInt (i + 1))) ∨
  (show_question req s = (s, Ok (Redirect "show_results" [])) ∧
   submit_answer req s = (s, Raise IndexError)).
Proof.
  intros Hreach.
  destruct (reachable_quiz_in_session file s Hreach)
    as (c & qs & rs & t & Hquiz & Hpre).
  pose proof Hquiz as (Hc & Htq & Hqs & Hci & Hrs & Hst & Hne & Hle & Hmatch).
  destruct (submit_answer_quiz_in_session req s c qs rs t Hquiz)
    as [(q & Hq & Hrun & _)|[Heq Hraise]].
  - left. exists c, q, (Z.of_nat (length rs)), (Z.of_nat (length qs)).
    apply lookup_lt_Some in Hq as Hlt.
    split; [lia|]. split; [done|]. split; [done|]. split.
    { rewrite Nat2Z.id. eapply prefix_lookup_Some; done. }
    split; [|split].
    + apply (show_question_current req s _ _ qs q Hci Htq); [lia|done|].
      by apply index_lt.
    + by rewrite Hrun.
    + rewrite Hrun. simpl. by simplify_map_eq.
  - right. split; [|done].
    apply (show_question_complete req s _ _ Hci Htq). lia.
Qed.

(** X8. Submitting a series of requests to a started quiz records their
    answers against the questions in order, one per question: after the
    stored answers [rs] come the records of the questions from position
    [len rs] on, paired with the requests. Requests beyond the last
    question add nothing. *)
Theorem submit_all_records (reqs : list request) (s : session) (c : string)
    (qs : list Question) (rs : list AnswerRecord) (t : float) :
  quiz_in_session s c qs rs t →
  quiz_in_session (submit_all reqs s) c qs
    (rs ++ zip_with (λ q req, record_of q (form req !! "answer"))
             (drop (length rs) qs) reqs) t.
Proof.
  revert s rs. induction reqs as [|req reqs IH]; intros s rs Hquiz.
  - simpl. destruct (drop _ qs); simpl; by rewrite app_nil_r.
  - unfold submit_all. simpl. fold (submit_all reqs (fst (submit_answer req s))).
    destruct (submit_answer_quiz_in_session req s c qs rs t Hquiz)
      as [(q & Hq & _ & Hnext)|[Heq Hraise]].
    + rewrite (drop_S _ _ _ Hq). simpl.
      specialize (IH _ _ Hnext). rewrite length_app in IH. simpl in IH.
      rewrite Nat.add_1_r in IH. by rewrite <- app_assoc in IH.
    + rewrite Hraise. simpl. specialize (IH s rs Hquiz).
      rewrite Heq, drop_all in IH |- *. simpl in *. done.
Qed.

(** X9. A question whose stored answer is not one of A, B, C, D cannot be
    answered correctly: whatever is submitted while it is current, the
    record appended for it is marked incorrect. *)
Theorem submit_answer_mislabelled (req : request) (s : session) (i : Z)
    (qs : list Question) (q : Question) (rs : list AnswerRecord) :
  s !! "current_index" = Some (VInt i) →
  s !! "questions" = Some (VQuestions qs) →
  index qs i = Some q →
  s !! "answers" = Some (VAnswers rs) →
  answer q ∉ labels →
  ∃ r : AnswerRecord,
    fst (submit_answer req s) !! "answers" = Some (VAnswers (rs ++ [r])) ∧
    is_correct r = false.
Proof.
  intros Hci Hqs Hq Hrs Hout.
  exists (record_of q (form req !! "answer")). split.
  - rewrite (submit_answer_in_range req s i qs q rs) by done.
    simpl. by simplify_map_eq.
  - simpl. unfold in_labels.
    destruct (form req !! "answer") as [a|]; simpl; [|done].
    case_bool_decide as Hin; simpl; [|done].
    apply bool_decide_eq_false_2. intros [= ->]. done.
Qed.

(** *** Logout *)

(** X10. [logout] of a logged-in user empties the session, so a quiz
    under way is gone: no quiz key is left and [GET /quiz] goes back to the
    category selection. For an anonymous request [logout] is not run: the
    client is sent to the login view and the quiz keys stay as they
    were. *)
Theorem logout_discards_quiz (req : request) (s : session) :
  if authenticated req then
    ∃ s', Pages.logout req s = (s', Ok (Redirect "home" [])) ∧
          s' = ∅ ∧ no_quiz s' ∧
          ∀ req', show_question req' s' = (s', Ok (Redirect "index" []))
  else
    ∃ s', Pages.logout req s = (s', Ok (Redirect "login" [])) ∧
          ∀ k, k ∈ quiz_keys → s' !! k = s !! k.
Proof.
  unfold Pages.logout, login_required, bind, ret, flash.
  destruct (authenticated req).
  - exists ∅. repeat split; try done.
  - eexists. split; [done|]. intros k Hk. simpl. apply lookup_insert_ne.
    intros Heq. subst k. unfold quiz_keys in Hk.
    rewrite !elem_of_cons, elem_of_nil in Hk.
    repeat (destruct Hk as [Hk|Hk]; [discriminate Hk|]). done.
Qed.

(** *** The category listing *)

Lemma foldl_max_spec (l : list Z) (x : Z) :
  x ≤ foldl Z.max x l ∧
  Forall (λ y, y ≤ foldl Z.max x l) l ∧
  (foldl Z.max x l = x ∨ foldl Z.max x l ∈ l).
Proof.
  revert x. induction l as [|y l IH]; intros x; simpl.
  - repeat split; [lia|constructor|by left].
  - destruct (IH (Z.max x y)) as (Hle & Hall & Hin).
    split; [lia|]. split; [constructor; [lia|done]|].
    destruct Hin as [Heq|Hin]; [|right; by apply list_elem_of_further].
    rewrite Heq. destruct (Z.max_spec x y) as [[_ ->]|[_ ->]].
    + right. apply list_elem_of_here.
    + by left.
Qed.

Lemma max_of_spec (l : list Z) :
  l ≠ [] → ∃ m, max_of l = Ok m ∧ Forall (λ y, y ≤ m) l ∧ m ∈ l.
Proof.
  destruct l as [|x l]; [done|]. intros _. simpl.
  destruct (foldl_max_spec l x) as (Hle & Hall & Hin).
  eexists. split; [done|]. split; [by constructor|].
  destruct Hin as [->|Hin]; [apply list_elem_of_here|by apply list_elem_of_further].
Qed.

(** X11. For a logged-in user [index] leaves the session as it was and
    has three outcomes. An exception raised while the file is read that
    [load_questions] does not catch (KeyError for JSON without
    [categories], for one) propagates. A file that is missing or is not
    JSON, and a file that lists no category, render the error message: the
    maximum of nothing is never taken. Otherwise the page carries the count
    of every category together with [max_questions], which is at least
    every category's count and is the count of one of them. *)
Theorem index_max_questions (read : file_read) (user : User)
    (req : request) (s : session) :
  authenticated req = true →
  (∀ e, read = ReadRaises e → Pages.index read user req s = (s, Raise e)) ∧
  ((read = ReadGives None ∨ read = ReadGives (Some ∅)) →
   Pages.index read user req s =
     (s, Ok (Page "index.html"
               {[ "error" := TValue (VStr "Failed to load questions. Please check the questions file.") ]}))) ∧
  (∀ cats, read = ReadGives (Some cats) → cats ≠ ∅ →
   ∃ m : Z,
     Pages.index read user req s =
       (s, Ok (Page "index.html"
                 {[ "categories" := TCounts ((λ qs, Z.of_nat (length qs)) <$> cats);
                    "max_questions" := TValue (VInt m);
                    "user" := TUser user ]})) ∧
     (∀ c qs, cats !! c = Some qs → Z.of_nat (length qs) ≤ m) ∧
     (∃ c qs, cats !! c = Some qs ∧ Z.of_nat (length qs) = m)).
Proof.
  intros Hauth. split; [|split].
  - intros e ->. unfold Pages.index, login_required_reply. by rewrite Hauth.
  - intros [->| ->]; unfold Pages.index, login_required_reply; by rewrite Hauth.
  - intros cats -> Hne.
    unfold Pages.index, login_required_reply, bind, ret, lift. rewrite Hauth. simpl.
    rewrite bool_decide_eq_false_2 by done.
    set (counts := (λ qs : list Question, Z.of_nat (length qs)) <$> (map_to_list cats).*2).
    destruct (max_of_spec counts) as (m & Hmax & Hall & Hin).
    { unfold counts. intros Hnil. apply fmap_nil_inv, fmap_nil_inv in Hnil.
      by apply map_to_list_empty_iff in Hnil. }
    exists m. rewrite Hmax. split; [done|]. split.
    + intros c qs Hc. rewrite Forall_forall in Hall. apply Hall.
      unfold counts. apply list_elem_of_fmap. exists qs. split; [done|].
      apply list_elem_of_fmap. exists (c, qs). split; [done|].
      by apply elem_of_map_to_list.
    + unfold counts in Hin. apply list_elem_of_fmap in Hin as (qs & -> & Hqs).
      apply list_elem_of_fmap in Hqs as ([c qs'] & -> & Hcqs).
      apply elem_of_map_to_list in Hcqs. by exists c, qs'.
Qed.

(** X12. The category page and [start_quiz] agree on every named category.
    Either the page is rendered with the category's count [k >= 1], and
    then a logged-in [start_quiz] for that category with any count
    [n >= 1] succeeds with [total_questions = min n k]; or the category has
    no questions, the page flashes its message and redirects to [index],
    and [start_quiz] is rejected for every count. *)
Theorem category_page_matches_start (file : questions_file) (user : User)
    (c raw : string) (n : Z) (req req' : request) (s s2 : session) :
  authenticated req = true →
  c ≠ "" →
  authenticated req' = true →
  form req' !! "category" = Some c →
  form req' !! "total_questions" = Some raw →
  int_of_str raw = Some n →
  0 < n →
  (∃ k : Z,
     0 < k ∧ k = Z.of_nat (length (questions_of file c)) ∧
     Pages.category_questions capitalize file user c req s =
       (s, Ok (Page "category.html"
                 {[ "category" := TValue (VStr (capitalize c));
                    "questions_count" := TValue (VInt k);
                    "user" := TUser user ]})) ∧
     snd (start_quiz int_of_str file req' s2) = Ok (Redirect "show_question" []) ∧
     fst (start_quiz int_of_str file req' s2) !! "total_questions"
       = Some (VInt (Z.min n k))) ∨
  (questions_of file c = [] ∧
   snd (Pages.category_questions capitalize file user c req s)
     = Ok (Plain (Redirect "index" [])) ∧
   (∃ ms, fst (Pages.category_questions capitalize file user c req s) !! "_flashes"
          = Some (VFlashes (ms ++ [("error", "No questions found for " +:+ capitalize c +:+ "!")]))) ∧
   snd (start_quiz int_of_str file req' s2)
     = Ok (Redirect "category_questions" [("category", c)])).
Proof.
  intros Hauth Hne Hauth' Hc Hraw Hn Hpos.
  destruct (decide (questions_of file c = [])) as [Hnil|Hqs].
  - right. split; [done|].
    unfold Pages.category_questions, login_required_reply, bind, ret, flash.
    rewrite Hauth. rewrite falsy_load_questions by done.
    rewrite bool_decide_eq_true_2 by done. simpl.
    split; [done|]. split; [rewrite lookup_insert_eq; eauto|].
    rewrite (start_quiz_rejected int_of_str file req' s2 c raw n); try done.
    rewrite falsy_load_questions by done. by rewrite bool_decide_eq_true_2.
  - left. exists (Z.of_nat (length (questions_of file c))).
    split; [destruct (questions_of file c); [done|simpl; lia]|].
    split; [done|]. split; [|split].
    + unfold Pages.category_questions, login_required_reply, bind, ret.
      rewrite Hauth. rewrite falsy_load_questions by done.
      rewrite bool_decide_eq_false_2 by done.
      unfold load_questions, questions_of in *. destruct file as [cats|]; [|done].
      simpl. by rewrite bool_decide_eq_false_2.
    + by rewrite (start_quiz_accepted int_of_str file req' s2 c raw n).
    + rewrite (start_quiz_accepted int_of_str file req' s2 c raw n) by done.
      simpl. by simplify_map_eq.
Qed.

(** *** Accounts *)

(** X13. [login] logs a user in only on matching credentials: when it
    answers with the redirect to [index], the form validated and the table
    holds a user with the stripped email whose stored hash passes
    [check_password_hash] against the stripped password; the session is
    the old one with that user logged in and the success message flashed.
    In every other case the session is left as it was. *)
Theorem login_success_sound (users : list User) (f : LoginForm) (s : session) :
  let out := login strip check_password_hash validate_on_submit login_user users f s in
  (snd out = Ok (Redirect "index" []) →
   validate_on_submit f = true ∧
   ∃ u, u ∈ users ∧ email u = strip (username_data f) ∧
        check_password_hash (password u) (strip (password_data f)) = true ∧
        fst out = fst (flash "Login successful!" "success" (login_user u s))) ∧
  (snd out ≠ Ok (Redirect "index" []) → fst out = s).
Proof.
  unfold login, bind, ret, flash. simpl.
  destruct (validate_on_submit f); [|split; [discriminate|done]].
  destruct (List.find _ users) as [u|] eqn:Hfind; [|split; [discriminate|done]].
  apply List.find_some in Hfind as [Hin Heq].
  apply String.eqb_eq in Heq. apply list_elem_of_In in Hin.
  destruct (check_password_hash _ _) eqn:Hcheck; simpl; [|split; [discriminate|done]].
  split; [|done]. intros _. split; [done|]. by exists u.
Qed.

Lemma find_email_none (users : list User) (e : string) :
  List.find (λ u, String.eqb (email u) e) users = None ↔
  ∀ u, u ∈ users → email u ≠ e.
Proof.
  split.
  - intros Hfind u Hin Heq. apply list_elem_of_In in Hin.
    apply (List.find_none _ _ Hfind) in Hin. by apply String.eqb_neq in Hin.
  - intros Hnone. destruct (List.find _ users) as [u|] eqn:Hfind; [|done].
    apply List.find_some in Hfind as [Hin Heq].
    apply String.eqb_eq in Heq. apply list_elem_of_In in Hin.
    by destruct (Hnone u Hin).
Qed.

Lemma existsb_email (users : list User) (e : string) :
  existsb (λ u, String.eqb (email u) e) users = true ↔
  ∃ u, u ∈ users ∧ email u = e.
Proof.
  rewrite existsb_exists. split.
  - intros (u & Hin & Heq). exists u. split; [by apply list_elem_of_In|].
    by apply String.eqb_eq.
  - intros (u & Hin & Heq). exists u. split; [by apply list_elem_of_In|].
    by apply String.eqb_eq.
Qed.

(** X14. [register] has three outcomes, and it changes the user table in
    one of them only. When the form validates and no row has the email,
    neither as submitted nor stripped, exactly one row is appended, holding
    the stripped email, the stripped username and the hash of the stripped
    password, and the client is sent to the login page. When the form
    validates and no row has the email as submitted but one has the
    stripped email, the duplicate check passes and the commit raises
    IntegrityError; no row is added. In every other case (an invalid form,
    or a row with the email as submitted) the registration page is
    rendered again and the table is left as it was. *)
Theorem register_table (users : list User) (salt : string) (f : RegistrationForm) :
  let out :=
    Pages.register strip generate_password_hash validate_registration next_id
      users salt f in
  (validate_registration f = true ∧
   (∀ u, u ∈ users → email u ≠ reg_email f) ∧
   (∀ u, u ∈ users → email u ≠ strip (reg_email f)) ∧
   snd out = Ok (Plain (Redirect "login" [])) ∧
   ∃ row, fst out = users ++ [row] ∧
          email row = strip (reg_email f) ∧
          username row = strip (reg_username f) ∧
          password row = generate_password_hash salt (strip (reg_password f))) ∨
  (validate_registration f = true ∧
   (∀ u, u ∈ users → email u ≠ reg_email f) ∧
   (∃ u, u ∈ users ∧ email u = strip (reg_email f)) ∧
   snd out = Raise IntegrityError ∧
   fst out = users) ∨
  ((validate_registration f = false ∨ ∃ u, u ∈ users ∧ email u = reg_email f) ∧
   fst out = users ∧
   ∃ context, snd out = Ok (Page "home/register.html" context)).
Proof.
  unfold Pages.register, add_and_commit. simpl.
  destruct (validate_registration f); [|right; right; eauto].
  destruct (List.find _ users) as [u|] eqn:Hfind.
  - right. right. apply List.find_some in Hfind as [Hin Heq].
    apply String.eqb_eq in Heq. apply list_elem_of_In in Hin.
    split; [right; by exists u|]. eauto.
  - pose proof (proj1 (find_email_none _ _) Hfind) as Hnone. clear Hfind.
    destruct (existsb _ users) eqn:Hdup; simpl.
    + right. left. apply existsb_email in Hdup. done.
    + left. repeat split; try done.
      * intros u Hin Heq.
        assert (existsb (λ u, String.eqb (email u) (strip (reg_email f))) users = true)
          as Habs by (apply existsb_email; by exists u).
        congruence.
      * eexists. split; [done|]. done.
Qed.

Lemma find_app_fresh {A} (p : A → bool) (l : list A) (x : A) :
  (∀ y, y ∈ l → p y = false) → p x = true → List.find p (l ++ [x]) = Some x.
Proof.
  intros Hl Hx. induction l as [|y l IH]; simpl.
  - by rewrite Hx.
  - rewrite (Hl y) by apply list_elem_of_here.
    apply IH. intros z Hz. apply Hl. by apply list_elem_of_further.
Qed.

(** X15. Registering and then logging in with the same email and password
    succeeds. If [check_password_hash] accepts what
    [generate_password_hash] produced for the same password, both forms
    validate, and no row has the submitted email, raw or stripped, then
    [register] appends a row and [login] with the submitted email and
    password logs that row's user in and redirects to [index]. *)
Theorem register_then_login (users : list User) (salt : string)
    (f : RegistrationForm) (s : session) :
  (∀ salt' p, check_password_hash (generate_password_hash salt' p) p = true) →
  validate_registration f = true →
  validate_on_submit
    {| username_data := reg_email f; password_data := reg_password f |} = true →
  (∀ u, u ∈ users → email u ≠ reg_email f) →
  (∀ u, u ∈ users → email u ≠ strip (reg_email f)) →
  ∃ row,
    Pages.register strip generate_password_hash validate_registration next_id
      users salt f = (users ++ [row], Ok (Plain (Redirect "login" []))) ∧
    login strip check_password_hash validate_on_submit login_user (users ++ [row])
      {| username_data := reg_email f; password_data := reg_password f |} s =
      (fst (flash "Login successful!" "success" (login_user row s)),
       Ok (Redirect "index" [])).
Proof.
  intros Hhash Hvalid Hvalid' Hraw Hstripped.
  eexists. split.
  - unfold Pages.register, add_and_commit. rewrite Hvalid.
    rewrite (proj2 (find_email_none users (reg_email f))) by done. simpl.
    destruct (existsb _ users) eqn:Hdup; [|done].
    apply existsb_email in Hdup as (u & Hin & Heq). by destruct (Hstripped u Hin).
  - unfold login. rewrite Hvalid'. simpl.
    rewrite find_app_fresh.
    + simpl. rewrite Hhash. done.
    + intros u Hin. apply String.eqb_neq. by apply Hstripped.
    + simpl. apply String.eqb_refl.
Qed.

(** *** The shown duration *)

(** X16. For every elapsed time that rounds to less than five minutes the
    shown duration has a seconds field between 0 and 59, never 60, and
    minutes and seconds add up to the whole seconds of the rounded time:
    [60 * minutes + seconds = floor t]. *)
Theorem time_taken_fields (x : float) :
  is_finite x = true →
  0 ≤ scaled_round x 2 < five_minutes →
  ∃ minutes seconds : Z,
    format_time_taken (round x 2) =
      Ok (pretty minutes +:+ "m " +:+ pretty seconds +:+ "s") ∧
    0 ≤ minutes < 5 ∧ 0 ≤ seconds < 60 ∧
    60 * minutes + seconds = scaled_round x 2 / 100.
Proof.
  intros Hfin Hrange. set (n := scaled_round x 2) in *.
  exists (n / 6000), (n mod 6000 / 100).
  rewrite format_round_hundredths by (done || lia).
  rewrite format_of_hundredths by done.
  unfold five_minutes in Hrange.
  split; [done|].
  pose proof (Z.mod_pos_bound n 6000 ltac:(lia)) as Hmod.
  repeat split.
  - apply Z.div_pos; lia.
  - apply Z.div_lt_upper_bound; lia.
  - apply Z.div_pos; lia.
  - apply Z.div_lt_upper_bound; lia.
  - rewrite (Z.div_mod n 6000) at 3 by lia.
    replace (6000 * (n / 6000)) with (60 * (n / 6000) * 100) by lia.
    rewrite (Z.add_comm _ (n mod 6000)), Z.div_add by lia. lia.
Qed.

End MoreProperties.

(** ** The further properties at the sample data *)

Ltac demo_reachable :=
  apply (reach_submit _ _ (Demo.post [("answer", "A")] 1001)
           (Demo.submitted ["B"]) _ (Ok (Redirect "show_question" [])));
    [|reflexivity];
  apply (reach_submit _ _ (Demo.post [("answer", "B")] 1001)
           Demo.started _ (Ok (Redirect "show_question" [])));
    [|reflexivity];
  apply (reach_start _ _
           (Demo.post [("category", "math"); ("total_questions", "9")] 1000) ∅);
  reflexivity.

Lemma get_questions_compose_witness :
  let qs := [Demo.q1; Demo.q2; Demo.q3; Demo.q4] in
  get_questions (get_questions qs 3) 2 = get_questions qs (Z.min 3 2) ∧
  get_questions (get_questions qs 3) 3 = get_questions qs 3.
Proof.
  intros qs. apply (get_questions_compose qs 3 2); lia.
Defined.

Lemma start_quiz_resets_witness :
  let req := Demo.post [("category", "math"); ("total_questions", "2")] 2000 in
  let s := Demo.submitted ["B"; "A"] in
  fst (start_quiz Demo.int_of_str Demo.file req s) !! "current_index" = Some (VInt 0).
Proof.
  intros req s.
  exact (proj1 (start_quiz_resets Demo.int_of_str Demo.file req s _ eq_refl)).
Defined.

Lemma submit_answer_frame_witness :
  let req := Demo.post [("answer", "B")] 1001 in
  (∀ k, k ≠ "answers" → k ≠ "current_index" →
        fst (submit_answer req Demo.started) !! k = Demo.started !! k) ∧
  (∀ e, snd (submit_answer req Demo.started) = Raise e →
        fst (submit_answer req Demo.started) = Demo.started).
Proof.
  intros req.
  exact (submit_answer_frame req Demo.started _ _ eq_refl).
Defined.

Lemma reachable_answers_match_witness :
  ∃ (c : string) (qs : list Question) (rs : list AnswerRecord),
    Demo.submitted ["B"; "A"] !! "category" = Some (VStr c) ∧
    Demo.submitted ["B"; "A"] !! "questions" = Some (VQuestions qs) ∧
    Demo.submitted ["B"; "A"] !! "answers" = Some (VAnswers rs).
Proof.
  destruct (reachable_answers_match Demo.int_of_str Demo.file
              (Demo.submitted ["B"; "A"]))
    as (c & qs & rs & Hc & Hqs & Hrs & _).
  - demo_reachable.
  - by exists c, qs, rs.
Defined.

Lemma quiz_progress_witness :
  let s := Demo.submitted ["B"; "A"] in
  let req := Demo.post [("answer", "D")] 1002 in
  show_question req s =
    (s, Ok (Render "quiz.html"
              {[ "question" := VQuestion Demo.q3;
                 "question_number" := VInt 3;
                 "total_questions" := VInt 4 ]})) ∨
  show_question req s = (s, Ok (Redirect "show_results" [])).
Proof.
  intros s req.
  destruct (quiz_progress Demo.int_of_str Demo.file s req) as [Hcurrent|[Hdone _]].
  - demo_reachable.
  - left. reflexivity.
  - right. exact Hdone.
Defined.

Lemma submit_all_records_witness :
  quiz_in_session
    (submit_all [Demo.post [("answer", "B")] 1001; Demo.post [("answer", "C")] 1002]
       Demo.started)
    "math" [Demo.q1; Demo.q2; Demo.q3; Demo.q4]
    [record_of Demo.q1 (Some "B"); record_of Demo.q2 (Some "C")] (of_int 1000).
Proof.
  apply (submit_all_records
           [Demo.post [("answer", "B")] 1001; Demo.post [("answer", "C")] 1002]
           Demo.started "math" [Demo.q1; Demo.q2; Demo.q3; Demo.q4] [] (of_int 1000)).
  unfold quiz_in_session. repeat split; try reflexivity.
  - discriminate.
  - simpl. lia.
  - intros i r Hr. by rewrite lookup_nil in Hr.
Defined.

Lemma submit_answer_mislabelled_witness :
  let s : session :=
    {[ "current_index" := VInt 0;
       "questions" := VQuestions [Sample.mislabelled];
       "answers" := VAnswers [] ]} in
  ∃ r : AnswerRecord,
    fst (submit_answer (Demo.post [("answer", "B")] 1001) s) !! "answers"
      = Some (VAnswers ([] ++ [r])) ∧
    is_correct r = false.
Proof.
  intros s.
  apply (submit_answer_mislabelled (Demo.post [("answer", "B")] 1001) s 0
           [Sample.mislabelled] Sample.mislabelled []); try reflexivity.
  unfold labels. rewrite !not_elem_of_cons.
  repeat split; try discriminate. apply not_elem_of_nil.
Defined.

Lemma index_max_questions_witness :
  ∃ m : Z,
    snd (Pages.index (ReadGives Demo.file) Demo.alice (Demo.post [] 1000) ∅) =
      Ok (Page "index.html"
            {[ "categories" := TCounts {[ "math" := 4; "empty" := 0 ]};
               "max_questions" := TValue (VInt m);
               "user" := TUser Demo.alice ]}) ∧
    m = 4.
Proof.
  destruct (proj2 (proj2 (index_max_questions (ReadGives Demo.file) Demo.alice
                            (Demo.post [] 1000) ∅ eq_refl))
              {[ "math" := [Demo.q1; Demo.q2; Demo.q3; Demo.q4]; "empty" := [] ]}
              eq_refl)
    as (m & Hrun & _ & _).
  - intros Hempty. apply (f_equal (λ cats, cats !! "math")) in Hempty. discriminate.
  - exists 4. split; reflexivity.
Defined.

Lemma category_page_matches_start_witness :
  snd (start_quiz Demo.int_of_str Demo.file
         (Demo.post [("category", "math"); ("total_questions", "2")] 1000) ∅)
    = Ok (Redirect "show_question" []) ∨
  questions_of Demo.file "math" = [].
Proof.
  destruct (category_page_matches_start Demo.int_of_str Demo.capitalize Demo.file
              Demo.alice "math" "2" 2 (Demo.post [] 1000)
              (Demo.post [("category", "math"); ("total_questions", "2")] 1000) ∅ ∅)
    as [(k & _ & _ & _ & Hstart & _)|(Hnil & _)];
    try reflexivity.
  - discriminate.
  - left. exact Hstart.
  - right. exact Hnil.
Defined.

Lemma register_then_login_witness :
  ∃ row,
    Pages.register Demo.strip Sample.generate_password_hash Sample.validate_on_submit
      Sample.next_id [Demo.alice] "salt" Sample.bob_form
      = ([Demo.alice] ++ [row], Ok (Plain (Redirect "login" []))) ∧
    login Demo.strip Demo.check_password_hash Demo.validate_on_submit (λ _ s, s)
      ([Demo.alice] ++ [row])
      {| username_data := "bob@example.org"; password_data := "builder" |} ∅
      = (fst (flash "Login successful!" "success" ∅), Ok (Redirect "index" [])).
Proof.
  apply (register_then_login Demo.strip Demo.check_password_hash
           Demo.validate_on_submit (λ _ s, s) Sample.generate_password_hash
           Sample.validate_on_submit Sample.next_id [Demo.alice] "salt"
           Sample.bob_form ∅).
  - intros salt p. unfold Demo.check_password_hash, Sample.generate_password_hash.
    by apply bool_decide_eq_true_2.
  - reflexivity.
  - reflexivity.
  - intros u Hu. apply list_elem_of_singleton in Hu. subst u. discriminate.
  - intros u Hu. apply list_elem_of_singleton in Hu. subst u. discriminate.
Defined.

Lemma time_taken_fields_witness :
  ∃ minutes seconds : Z,
    format_time_taken (round (fdiv (of_int 5999) (of_int 100)) 2) =
      Ok (pretty minutes +:+ "m " +:+ pretty seconds +:+ "s") ∧
    0 ≤ minutes < 5 ∧ 0 ≤ seconds < 60 ∧
    60 * minutes + seconds =
      scaled_round (fdiv (of_int 5999) (of_int 100)) 2 / 100.
Proof.
  apply (time_taken_fields (fdiv (of_int 5999) (of_int 100))).
  - reflexivity.
  - split; [by vm_compute | reflexivity].
Defined.
